(** * Park_it: occupancy decision engine

    A shallow embedding of the occupancy logic of

      - [server/opencv_service/yolo_detector.py]       (class [YOLODetector])
      - [server/opencv_service/parking_lot_tracker.py] (class [ParkingLotTracker])
      - [Tested/Tested/test22.py]                      (class [ParkingDetector])

    Python numbers (ints and floats alike) are read as exact rationals [Q];
    results on numbers are therefore stated up to [Qeq] ([==]).  Statements
    that compare or order the values the code returns hold of the binary64
    values as well; statements on a value itself ([calculate_iou] equal to 1,
    or positive) carry bounds on the sizes of the boxes within which no
    floating-point area overflows or underflows.  The int64 arithmetic that
    NumPy performs on the slot box of test22.py is modelled with its
    wrap-around in [ParkingDetectorNp].  The OpenCV, NumPy and YOLO calls
    whose bodies are not part of the repository are section variables. *)

From Stdlib Require Import QArith Qminmax ZArith NArith String List Lia Lqa.
From Stdlib Require Import Qround.
Import ListNotations.
Open Scope Q_scope.

(** ** Python helpers *)

(** Python's [a < b] and [a >= b] on numbers, as booleans. *)
Definition Qltb (a b : Q) : bool :=
  match a ?= b with Lt => true | _ => false end.

Definition Qgeb (a b : Q) : bool :=
  match a ?= b with Lt => false | _ => true end.

Definition Qgtb (a b : Q) : bool := Qltb b a.

(** Python's two-argument [max(a, b)] keeps [a] unless [b > a], and
    [min(a, b)] keeps [a] unless [b < a]; these are [Qmax] and [Qmin]. *)
Definition py_max (a b : Q) : Q := Qmax a b.
Definition py_min (a b : Q) : Q := Qmin a b.

(** [int(q)] on a number: truncation towards zero. *)
Definition py_int (q : Q) : Z := Z.quot (Qnum q) (Zpos (Qden q)).

(** Exceptions raised by the modelled code. *)
Inductive exn : Type :=
| FileNotFoundError
| ValueError
| IndexError
| LibraryError.

Definition result (A : Type) : Type := (exn + A)%type.

Definition ok {A} (a : A) : result A := inr a.
Definition raise {A} (e : exn) : result A := inl e.

Definition bind {A B} (m : result A) (k : A -> result B) : result B :=
  match m with
  | inl e => inl e
  | inr a => k a
  end.

Notation "x <- m ;; k" := (bind m (fun x => k))
  (at level 61, m at next level, right associativity).
Notation "' p <- m ;; k" := (bind m (fun x => let p := x in k))
  (at level 61, p pattern, m at next level, right associativity).

(** A bounding box [[x_min, y_min, x_max, y_max]]. *)
Definition box : Type := (Q * Q * Q * Q)%type.

(** A polygon point [[x, y]]. *)
Definition point : Type := (Q * Q)%type.

(** Slot status strings. *)
Inductive status : Type := occupied | vacant.

(** One entry of a slot's ['coordinates'] list: a dict, a list or tuple, or
    anything else. *)
Inductive coord : Type :=
| CoordDict (d : list (string * Q))
| CoordSeq (l : list Q)
| CoordOther.

(** [d.get(key, default)] *)
Fixpoint dict_get (d : list (string * Q)) (key : string) (default : Q) : Q :=
  match d with
  | [] => default
  | (k, v) :: d' => if String.eqb k key then v else dict_get d' key default
  end.

Fixpoint dict_has (d : list (string * Q)) (key : string) : bool :=
  match d with
  | [] => false
  | (k, _) :: d' => if String.eqb k key then true else dict_has d' key
  end.

(** [l[i]], raising [IndexError] out of range. *)
Definition seq_index (l : list Q) (i : nat) : result Q :=
  match nth_error l i with
  | Some v => ok v
  | None => raise IndexError
  end.

(** Values of the identity fields of a slot record. *)
Inductive pyval : Type :=
| PNone
| PInt (n : Z)
| PStr (s : string).

Definition truthy (v : pyval) : bool :=
  match v with
  | PNone => false
  | PInt n => negb (n =? 0)%Z
  | PStr s => negb (String.eqb s EmptyString)
  end.

(** [a or b] *)
Definition py_or (a b : pyval) : pyval := if truthy a then a else b.

(** [a or b] on optional numbers ([None] and [0] are falsy). *)
Definition num_truthy (v : option Q) : bool :=
  match v with
  | None => false
  | Some q => negb (Qeq_bool q 0)
  end.

Definition num_or (a b : option Q) : option Q := if num_truthy a then a else b.

(** A slot record; a field absent from the dict reads as [None] / [PNone]
    through [slot.get]. *)
Record slot : Type := mkSlot {
  coordinates : option (list coord);
  slot_id : pyval;
  slotId : pyval;
  slot_number : pyval;
  slotNumber : pyval;
  image_width : option Q;
  imageWidth : option Q;
  image_height : option Q;
  imageHeight : option Q
}.

(** [slot.get('coordinates', [])] *)
Definition get_coordinates (s : slot) : list coord :=
  match coordinates s with
  | Some cs => cs
  | None => []
  end.

Definition get_slot_id (s : slot) : pyval := py_or (slot_id s) (slotId s).
Definition get_slot_num (s : slot) : pyval := py_or (slot_number s) (slotNumber s).

Definition get_s_width (s : slot) (img_width : Z) : Q :=
  match num_or (num_or (image_width s) (imageWidth s)) (Some (inject_Z img_width)) with
  | Some q => q
  | None => inject_Z img_width
  end.

Definition get_s_height (s : slot) (img_height : Z) : Q :=
  match num_or (num_or (image_height s) (imageHeight s)) (Some (inject_Z img_height)) with
  | Some q => q
  | None => inject_Z img_height
  end.

(** ** yolo_detector.py *)

Module YOLODetector.

(** A detected vehicle: [{'bbox': ..., 'confidence': ..., 'class': 'car'}]. *)
Record vehicle : Type := mkVehicle {
  bbox : box;
  confidence : Q;
  class : string
}.

(** One box of [results[0].boxes]. *)
Record yolo_box : Type := mkYoloBox {
  cls : Z;
  xyxy : box;
  conf : Q
}.

Record vehicle_metadata : Type := mkMeta {
  bounding_box : box;
  meta_confidence : Q;
  meta_iou : Q
}.

Record slot_result : Type := mkResult {
  r_slot_id : pyval;
  r_slot_number : pyval;
  r_status : status;
  r_confidence : Q;
  r_occupancy_ratio : Q;
  r_detection_method : string;
  r_vehicle_metadata : option vehicle_metadata
}.

(** The lines printed to the console. *)
Inductive diag : Type :=
| Processing (n_slots : nat)
| Detected (n_vehicles : nat)
| WarnNoCoordinates (slot_num : pyval)
| SlotReport (slot_num : pyval) (st : status) (iou : Q) (has_vehicle : bool)
| SlotError (slot_num : pyval) (e : exn).

(** [pts.min(axis=0)], [pts.max(axis=0)]: NumPy raises [ValueError] on an
    array without rows. *)
Fixpoint column_min (first : Q) (rest : list Q) : Q :=
  match rest with
  | [] => first
  | v :: rest' => column_min (Qmin first v) rest'
  end.

Fixpoint column_max (first : Q) (rest : list Q) : Q :=
  match rest with
  | [] => first
  | v :: rest' => column_max (Qmax first v) rest'
  end.

Definition polygon_to_bbox (polygon : list point) : result box :=
  match polygon with
  | [] => raise ValueError
  | (x0, y0) :: pts =>
      let xs := map fst pts in
      let ys := map snd pts in
      ok (column_min x0 xs, column_min y0 ys, column_max x0 xs, column_max y0 ys)
  end.

Definition calculate_iou (box1 box2 : box) : Q :=
  let '(x1_min, y1_min, x1_max, y1_max) := box1 in
  let '(x2_min, y2_min, x2_max, y2_max) := box2 in
  let inter_x_min := py_max x1_min x2_min in
  let inter_y_min := py_max y1_min y2_min in
  let inter_x_max := py_min x1_max x2_max in
  let inter_y_max := py_min y1_max y2_max in
  if Qltb inter_x_max inter_x_min || Qltb inter_y_max inter_y_min then 0
  else
    let inter_area := (inter_x_max - inter_x_min) * (inter_y_max - inter_y_min) in
    let box1_area := (x1_max - x1_min) * (y1_max - y1_min) in
    let box2_area := (x2_max - x2_min) * (y2_max - y2_min) in
    let union_area := box1_area + box2_area - inter_area in
    if Qgtb union_area 0 then inter_area / union_area else 0.

(** The [for vehicle in vehicle_boxes] loop, on the pair
    [(max_iou, matched_vehicle)]. *)
Fixpoint best_match (slot_bbox : box) (vehicle_boxes : list vehicle)
         (max_iou : Q) (matched_vehicle : option vehicle) : Q * option vehicle :=
  match vehicle_boxes with
  | [] => (max_iou, matched_vehicle)
  | v :: rest =>
      let iou := calculate_iou slot_bbox (bbox v) in
      if Qgtb iou max_iou
      then best_match slot_bbox rest iou (Some v)
      else best_match slot_bbox rest max_iou matched_vehicle
  end.

(** The [for box in results[0].boxes] loop: boxes of class 2 (car) become
    vehicles. *)
Fixpoint extract_vehicles (boxes : list yolo_box) : list vehicle :=
  match boxes with
  | [] => []
  | b :: rest =>
      if (cls b =? 2)%Z
      then mkVehicle (xyxy b) (conf b) "car" :: extract_vehicles rest
      else extract_vehicles rest
  end.

Section Detector.

(** Constructor arguments. *)
Variable occupied_threshold : Q.

(** The world outside the repository: the file system, [cv2.imread],
    [img.shape[:2]] and [self.model.predict]. *)
Variable image : Type.
Variable path_exists : string -> bool.
Variable imread : string -> option image.
Variable shape : image -> Z * Z.
Variable predict : image -> list yolo_box.

Definition check_slot_occupancy (slot_polygon : list point)
           (vehicle_boxes : list vehicle) : result (bool * Q * option vehicle) :=
  slot_bbox <- polygon_to_bbox slot_polygon ;;
  let '(max_iou, matched_vehicle) := best_match slot_bbox vehicle_boxes 0 None in
  let is_occupied := Qgeb max_iou occupied_threshold in
  ok (is_occupied, max_iou, matched_vehicle).

Definition detect_vehicles (image_path : string) : list diag * result (list vehicle) :=
  if negb (path_exists image_path) then ([], raise FileNotFoundError)
  else
    match imread image_path with
    | None => ([], raise ValueError)
    | Some img =>
        let results := predict img in
        let vehicles := extract_vehicles results in
        ([Detected (List.length vehicles)], ok vehicles)
    end.

(** The [for coord in coordinates] loop building [pixel_coords]. *)
Fixpoint pixel_coords (coords : list coord) (s_width s_height : Q)
  : result (list point) :=
  match coords with
  | [] => ok []
  | CoordDict d :: rest =>
      let x_norm := dict_get d "x" 0 in
      let y_norm := dict_get d "y" 0 in
      ps <- pixel_coords rest s_width s_height ;;
      ok ((x_norm * s_width, y_norm * s_height) :: ps)
  | CoordSeq l :: rest =>
      x_norm <- seq_index l 0 ;;
      y_norm <- seq_index l 1 ;;
      ps <- pixel_coords rest s_width s_height ;;
      ok ((x_norm * s_width, y_norm * s_height) :: ps)
  | CoordOther :: rest => pixel_coords rest s_width s_height
  end.

(** The body of the [try] block for one slot that has coordinates. *)
Definition evaluate_slot (s : slot) (img_width img_height : Z)
           (vehicles : list vehicle) : result (slot_result * diag) :=
  let slot_id := get_slot_id s in
  let slot_num := get_slot_num s in
  let s_width := get_s_width s img_width in
  let s_height := get_s_height s img_height in
  pcs <- pixel_coords (get_coordinates s) s_width s_height ;;
  '(is_occupied, max_iou, matched_vehicle) <- check_slot_occupancy pcs vehicles ;;
  let st := if is_occupied then occupied else vacant in
  let meta :=
    match matched_vehicle with
    | Some v =>
        if is_occupied
        then Some (mkMeta (bbox v) (confidence v) max_iou)
        else None
    | None => None
    end in
  ok (mkResult slot_id slot_num st 1 max_iou "yolo" meta,
      SlotReport slot_num st max_iou
                 (match matched_vehicle with Some _ => true | None => false end)).

(** One iteration of [for slot in slots]: the result appended (if any)
    and the line printed. *)
Definition process_slot (s : slot) (img_width img_height : Z)
           (vehicles : list vehicle) : option slot_result * diag :=
  match get_coordinates s with
  | [] => (None, WarnNoCoordinates (get_slot_num s))
  | _ :: _ =>
      match evaluate_slot s img_width img_height vehicles with
      | inr (r, d) => (Some r, d)
      | inl e => (None, SlotError (get_slot_num s) e)
      end
  end.

Fixpoint process_slots (slots : list slot) (img_width img_height : Z)
         (vehicles : list vehicle) : list slot_result * list diag :=
  match slots with
  | [] => ([], [])
  | s :: rest =>
      let '(r, d) := process_slot s img_width img_height vehicles in
      let '(rs, ds) := process_slots rest img_width img_height vehicles in
      (match r with Some r' => r' :: rs | None => rs end, d :: ds)
  end.

Definition detect_occupancy (image_path : string) (slots : list slot)
  : list diag * result (list slot_result) :=
  let log0 := [Processing (List.length slots)] in
  match detect_vehicles image_path with
  | (log1, inl e) => (log0 ++ log1, raise e)
  | (log1, inr vehicles) =>
      match imread image_path with
      | None => (log0 ++ log1, raise ValueError)
      | Some img =>
          let '(img_height, img_width) := shape img in
          let '(results, log2) := process_slots slots img_width img_height vehicles in
          (log0 ++ log1 ++ log2, ok results)
      end
  end.

End Detector.

End YOLODetector.

(** ** test22.py

    [ParkingDetector] below reads every number as a rational; the int64
    scalars of a slot box are modelled in [ParkingDetectorNp] further down,
    and the two agree as long as no int64 operation wraps around. *)

Module ParkingDetector.

Definition OCCUPIED_THRESHOLD : Q := 30 # 100.

Definition polygon_to_bbox (polygon : list point) : result box :=
  match polygon with
  | [] => raise ValueError
  | (x0, y0) :: pts =>
      let xs := map fst pts in
      let ys := map snd pts in
      ok (YOLODetector.column_min x0 xs, YOLODetector.column_min y0 ys,
          YOLODetector.column_max x0 xs, YOLODetector.column_max y0 ys)
  end.

Definition calculate_iou (box1 box2 : box) : Q :=
  let '(x1_min, y1_min, x1_max, y1_max) := box1 in
  let '(x2_min, y2_min, x2_max, y2_max) := box2 in
  let inter_x_min := py_max x1_min x2_min in
  let inter_y_min := py_max y1_min y2_min in
  let inter_x_max := py_min x1_max x2_max in
  let inter_y_max := py_min y1_max y2_max in
  if Qltb inter_x_max inter_x_min || Qltb inter_y_max inter_y_min then 0
  else
    let inter_area := (inter_x_max - inter_x_min) * (inter_y_max - inter_y_min) in
    let box1_area := (x1_max - x1_min) * (y1_max - y1_min) in
    let box2_area := (x2_max - x2_min) * (y2_max - y2_min) in
    let union_area := box1_area + box2_area - inter_area in
    if Qgtb union_area 0 then inter_area / union_area else 0.

(** The [for car_box in car_boxes] loop on [max_iou]. *)
Fixpoint running_max (slot_bbox : box) (car_boxes : list box) (max_iou : Q) : Q :=
  match car_boxes with
  | [] => max_iou
  | car_box :: rest =>
      let iou := calculate_iou slot_bbox car_box in
      running_max slot_bbox rest (py_max max_iou iou)
  end.

Definition check_slot_occupancy (slot_polygon : list point) (car_boxes : list box)
  : result bool :=
  slot_bbox <- polygon_to_bbox slot_polygon ;;
  let max_iou := running_max slot_bbox car_boxes 0 in
  ok (Qgeb max_iou OCCUPIED_THRESHOLD).

End ParkingDetector.

(** ** parking_lot_tracker.py *)

Module ParkingLotTracker.

Record slot_result : Type := mkResult {
  r_slot_id : pyval;
  r_slot_number : pyval;
  r_status : status;
  r_occupancy_ratio : Q;
  r_white_pixel_count : Z;
  r_total_area : Z;
  r_confidence : Q
}.

Inductive diag : Type :=
| Processing (n_slots : nat)
| LoadError
| DebugSaved (debug_path : string)
| WarnNoCoordinates (slot_num : pyval)
| SlotReport (slot_num : pyval) (count : Z) (area : Z) (ratio : Q) (st : status) (thresh : Q)
| SlotError (e : exn).

(** The [for coord in coordinates] loop building [pixel_coords].  [int]
    truncates the product read as a rational; on floats the code truncates
    the rounded product, which can differ by one pixel ([int(0.29 * 100)] is
    28). *)
Fixpoint pixel_coords (coords : list coord) (s_width s_height : Q)
  : result (list (Z * Z)) :=
  match coords with
  | [] => ok []
  | CoordDict d :: rest =>
      let x_norm := dict_get d "x" 0 in
      let y_norm := dict_get d "y" 0 in
      ps <- pixel_coords rest s_width s_height ;;
      ok ((py_int (x_norm * s_width), py_int (y_norm * s_height)) :: ps)
  | CoordSeq l :: rest =>
      x_norm <- seq_index l 0 ;;
      y_norm <- seq_index l 1 ;;
      ps <- pixel_coords rest s_width s_height ;;
      ok ((py_int (x_norm * s_width), py_int (y_norm * s_height)) :: ps)
  | CoordOther :: rest => pixel_coords rest s_width s_height
  end.

(** The clipping of the bounding rectangle to the frame. *)
Definition clip_rect (rect : Z * Z * Z * Z) (rows cols : Z) : Z * Z * Z * Z :=
  let '(x, y, w, h) := rect in
  let h := if (y + h >? rows)%Z then (rows - y)%Z else h in
  let w := if (x + w >? cols)%Z then (cols - x)%Z else w in
  (x, y, w, h).

Section Tracker.

Variable threshold_val : Q.

(** The world outside the repository: [cv2.imread], [img.shape[:2]], the
    filter pipeline of [preprocess_image], [cv2.boundingRect] on the
    [int32] point array (the conversion [np.array(pixel_coords, np.int32)]
    included), and the crop / [fillPoly] / [bitwise_and] / [countNonZero]
    sequence that yields [count]. *)
Variable image : Type.
Variable imread : string -> option image.
Variable shape : image -> Z * Z.
Variable preprocess_image : image -> image.
Variable boundingRect : list (Z * Z) -> result (Z * Z * Z * Z).
Variable count_masked : image -> list (Z * Z) -> Z * Z * Z * Z -> result N.

(** The [try] block that saves the debug frame ([os.path], [os.getcwd],
    [cv2.imwrite]): the path it prints when it runs to its [print], [None]
    when an exception is swallowed by [except: pass]. *)
Variable save_debug_frame : string -> image -> option string.

(** From [count] and the clipped [w], [h] to the verdict:
    [(is_occupied, count / area, area)]. *)
Definition decide (count : N) (w h : Z) : bool * Q * Z :=
  let area := (w * h)%Z in
  let area := if (area =? 0)%Z then 1%Z else area in
  let threshold_pixel := threshold_val in
  let ratio := inject_Z (Z.of_N count) / inject_Z area in
  let is_occupied :=
    if Qgtb threshold_pixel 1
    then Qgeb (inject_Z (Z.of_N count)) threshold_pixel
    else Qgtb ratio threshold_pixel in
  (is_occupied, ratio, area).

(** The body of the [try] block for one slot that has coordinates. *)
Definition evaluate_slot (s : slot) (imgPro : image) (img_width img_height : Z)
  : result (slot_result * diag) :=
  let slot_id := get_slot_id s in
  let slot_num := get_slot_num s in
  let s_width := get_s_width s img_width in
  let s_height := get_s_height s img_height in
  pts <- pixel_coords (get_coordinates s) s_width s_height ;;
  rect <- boundingRect pts ;;
  let '(rows, cols) := shape imgPro in
  let '(x, y, w, h) := clip_rect rect rows cols in
  count <- count_masked imgPro pts (x, y, w, h) ;;
  let '(is_occupied, ratio, area) := decide count w h in
  let st := if is_occupied then occupied else vacant in
  ok (mkResult slot_id slot_num st ratio (Z.of_N count) area 1,
      SlotReport slot_num (Z.of_N count) area ratio st threshold_val).

Definition process_slot (s : slot) (imgPro : image) (img_width img_height : Z)
  : option slot_result * diag :=
  match get_coordinates s with
  | [] => (None, WarnNoCoordinates (get_slot_num s))
  | _ :: _ =>
      match evaluate_slot s imgPro img_width img_height with
      | inr (r, d) => (Some r, d)
      | inl e => (None, SlotError e)
      end
  end.

Fixpoint process_slots (slots : list slot) (imgPro : image) (img_width img_height : Z)
  : list slot_result * list diag :=
  match slots with
  | [] => ([], [])
  | s :: rest =>
      let '(r, d) := process_slot s imgPro img_width img_height in
      let '(rs, ds) := process_slots rest imgPro img_width img_height in
      (match r with Some r' => r' :: rs | None => rs end, d :: ds)
  end.

(** The line the debug block prints, if it gets that far. *)
Definition debug_log (image_path : string) (imgPro : image) : list diag :=
  match save_debug_frame image_path imgPro with
  | Some debug_path => [DebugSaved debug_path]
  | None => []
  end.

Definition detect_occupancy (image_path : string) (slots : list slot)
  : list diag * result (list slot_result) :=
  let log0 := [Processing (List.length slots)] in
  match imread image_path with
  | None => (log0 ++ [LoadError], raise ValueError)
  | Some img =>
      let imgPro := preprocess_image img in
      let '(img_height, img_width) := shape img in
      let log_debug := debug_log image_path imgPro in
      let '(results, log1) := process_slots slots imgPro img_width img_height in
      (log0 ++ log_debug ++ log1, ok results)
  end.

End Tracker.

End ParkingLotTracker.

(** ** Geometry of two boxes

    The quantities [calculate_iou] computes on its way, named for the
    statements below. *)

Definition inter_w (box1 box2 : box) : Q :=
  let '(x1_min, _, x1_max, _) := box1 in
  let '(x2_min, _, x2_max, _) := box2 in
  Qmin x1_max x2_max - Qmax x1_min x2_min.

Definition inter_h (box1 box2 : box) : Q :=
  let '(_, y1_min, _, y1_max) := box1 in
  let '(_, y2_min, _, y2_max) := box2 in
  Qmin y1_max y2_max - Qmax y1_min y2_min.

Definition box_area (b : box) : Q :=
  let '(x_min, y_min, x_max, y_max) := b in
  (x_max - x_min) * (y_max - y_min).

Definition inter_area (box1 box2 : box) : Q := inter_w box1 box2 * inter_h box1 box2.

Definition union_area (box1 box2 : box) : Q :=
  box_area box1 + box_area box2 - inter_area box1 box2.

(** Two boxes are apart on an axis when one ends where, or before, the other
    begins. *)
Definition apart_on_some_axis (box1 box2 : box) : Prop :=
  let '(x1_min, y1_min, x1_max, y1_max) := box1 in
  let '(x2_min, y2_min, x2_max, y2_max) := box2 in
  x1_max <= x2_min \/ x2_max <= x1_min \/ y1_max <= y2_min \/ y2_max <= y1_min.

(** A box with positive width and height. *)
Definition proper_box (b : box) : Prop :=
  let '(x_min, y_min, x_max, y_max) := b in
  x_min < x_max /\ y_min < y_max.


(** ** The maximum IoU, as the specification words it

    [m] is the maximum IoU between [slot_bbox] and the boxes of [boxes]: no
    box has a larger IoU, some box attains [m], and with no box at all the
    maximum is taken to be 0. *)

Definition is_max_iou (slot_bbox : box) (boxes : list box) (m : Q) : Prop :=
  (forall b, In b boxes -> YOLODetector.calculate_iou slot_bbox b <= m) /\
  match boxes with
  | [] => m == 0
  | _ :: _ => exists b, In b boxes /\ YOLODetector.calculate_iou slot_bbox b == m
  end.

(** The slot's bounding box overlaps none of the boxes. *)
Definition overlaps_none (slot_bbox : box) (boxes : list box) : Prop :=
  forall b, In b boxes -> apart_on_some_axis slot_bbox b.

(** The result record [detect_occupancy] builds from the outcome of
    [check_slot_occupancy]. *)
Definition yolo_record (s : slot) (is_occupied : bool) (max_iou : Q)
           (matched_vehicle : option YOLODetector.vehicle) : YOLODetector.slot_result :=
  YOLODetector.mkResult (get_slot_id s) (get_slot_num s)
    (if is_occupied then occupied else vacant) 1 max_iou "yolo"
    (match matched_vehicle with
     | Some v =>
         if is_occupied
         then Some (YOLODetector.mkMeta (YOLODetector.bbox v) (YOLODetector.confidence v) max_iou)
         else None
     | None => None
     end).

(** ** Scenario data *)

(** The polygon, the vehicle and the slot record of scenario C. *)
Definition scenario_polygon : list point := [(0, 0); (10, 0); (10, 10); (0, 10)].

Definition scenario_vehicle : YOLODetector.vehicle :=
  YOLODetector.mkVehicle (5, 5, 15, 15) (9 # 10) "car".

Definition scenario_slot : slot :=
  mkSlot (Some [CoordSeq [0; 0]; CoordSeq [10; 0]; CoordSeq [10; 10]; CoordSeq [0; 10]])
         (PInt 1) PNone (PInt 1) PNone (Some 1) None (Some 1) None.

(** A vehicle far from the scenario slot (scenario B). *)
Definition scenario_far_vehicle : YOLODetector.vehicle :=
  YOLODetector.mkVehicle (20, 20, 30, 30) (9 # 10) "car".

(** A slot drawn with two points only (scenario E), a slot without
    coordinates, and a slot whose entries are all of unknown shape. *)
Definition two_point_slot : slot :=
  mkSlot (Some [CoordSeq [0; 0]; CoordSeq [10; 10]])
         (PInt 7) PNone (PInt 7) PNone (Some 1) None (Some 1) None.

Definition empty_slot : slot :=
  mkSlot (Some []) (PInt 8) PNone (PInt 8) PNone (Some 1) None (Some 1) None.

Definition shapeless_slot : slot :=
  mkSlot (Some [CoordOther; CoordOther]) (PInt 9) PNone (PInt 9) PNone
         (Some 1) None (Some 1) None.

(** A small world for the examples: every path exists and decodes to a
    640x480 frame, the detector sees one car at [5,5,15,15] and one object of
    another class, the bounding rectangle is the integer envelope of the
    points and 40 pixels are counted in every crop. *)
Definition demo_image : Type := unit.
Definition demo_exists (path : string) : bool := true.
Definition demo_imread (path : string) : option demo_image := Some tt.
Definition demo_shape (img : demo_image) : Z * Z := (480%Z, 640%Z).
Definition demo_predict (img : demo_image) : list YOLODetector.yolo_box :=
  [YOLODetector.mkYoloBox 2 (5, 5, 15, 15) (9 # 10);
   YOLODetector.mkYoloBox 0 (0, 0, 10, 10) (8 # 10)].
Definition demo_preprocess (img : demo_image) : demo_image := img.

Definition demo_boundingRect (pts : list (Z * Z)) : result (Z * Z * Z * Z) :=
  match pts with
  | [] => raise LibraryError
  | (x0, y0) :: rest =>
      let x_lo := fold_left Z.min (map fst rest) x0 in
      let x_hi := fold_left Z.max (map fst rest) x0 in
      let y_lo := fold_left Z.min (map snd rest) y0 in
      let y_hi := fold_left Z.max (map snd rest) y0 in
      ok (x_lo, y_lo, x_hi - x_lo + 1, y_hi - y_lo + 1)%Z
  end.

Definition demo_count_masked (img : demo_image) (pts : list (Z * Z))
           (rect : Z * Z * Z * Z) : result N := ok 40%N.

Definition demo_save_debug (path : string) (img : demo_image) : option string :=
  Some "client/debug_frame.jpg"%string.


(** A world whose frames cannot be decoded. *)
Definition unreadable_imread (path : string) : option demo_image := None.


(** The status a single slot is given by the detection strategy, if it gets
    a result record at all. *)
Definition yolo_status (occupied_threshold : Q) (s : slot) (img_width img_height : Z)
           (vehicles : list YOLODetector.vehicle) : option status :=
  option_map YOLODetector.r_status
    (fst (YOLODetector.process_slot occupied_threshold s img_width img_height vehicles)).

(** * Further code *)

(** ** test22.py: [calculate_display_size] *)

Inductive arith_exn : Type := ZeroDivisionError.

(** [a / b] on numbers: Python raises on a zero divisor. *)
Definition py_div (a b : Q) : arith_exn + Q :=
  if Qeq_bool b 0 then inl ZeroDivisionError else inr (a / b).

Definition calculate_display_size
           (original_width original_height max_width max_height : Z)
  : arith_exn + (Z * Z * Q) :=
  match py_div (inject_Z max_width) (inject_Z original_width) with
  | inl e => inl e
  | inr width_scale =>
      match py_div (inject_Z max_height) (inject_Z original_height) with
      | inl e => inl e
      | inr height_scale =>
          let scale := py_min width_scale height_scale in
          let new_width := py_int (inject_Z original_width * scale) in
          let new_height := py_int (inject_Z original_height * scale) in
          inr (new_width, new_height, scale)
      end
  end.

(** ** test22.py: class [SlotDrawer] *)

Module SlotDrawer.

(** The fields of the drawer that the callbacks read and write. *)
Record state : Type := mkState {
  points : list (Z * Z);
  slots : list (list (Z * Z));
  scale_factor : Q
}.

(** [__init__] *)
Definition init : state := mkState [] [] 1.

Inductive mouse_event : Type :=
| EVENT_LBUTTONDOWN
| EVENT_RBUTTONDOWN
| EVENT_OTHER.

(** [mouse_callback(event, x, y, flags, param)] (the prints are left out). *)
Definition mouse_callback (self : state) (event : mouse_event) (x y : Z)
  : arith_exn + state :=
  match event with
  | EVENT_LBUTTONDOWN =>
      match py_div (inject_Z x) (scale_factor self) with
      | inl e => inl e
      | inr qx =>
          match py_div (inject_Z y) (scale_factor self) with
          | inl e => inl e
          | inr qy =>
              let orig_x := py_int qx in
              let orig_y := py_int qy in
              let points' := points self ++ [(orig_x, orig_y)] in
              if (List.length points' =? 4)%nat
              then inr (mkState [] (slots self ++ [points']) (scale_factor self))
              else inr (mkState points' (slots self) (scale_factor self))
          end
      end
  | EVENT_RBUTTONDOWN =>
      match points self with
      | _ :: _ => inr (mkState (removelast (points self)) (slots self) (scale_factor self))
      | [] =>
          match slots self with
          | _ :: _ => inr (mkState [] (removelast (slots self)) (scale_factor self))
          | [] => inr self
          end
      end
  | EVENT_OTHER => inr self
  end.

(** The point of a slot as [draw_slots_on_frame] scales it for display:
    [(int(x * self.scale_factor), int(y * self.scale_factor))]. *)
Definition scaled_point (self : state) (pt : Z * Z) : Z * Z :=
  let '(x, y) := pt in
  (py_int (inject_Z x * scale_factor self), py_int (inject_Z y * scale_factor self)).

(** What one pass through the key tests of [run] does. *)
Inductive key_action : Type :=
| SaveAndExit (file : list (list (Z * Z)))
| NothingToSave
| Reset (self' : state)
| QuitWithoutSaving
| NoAction.

(** The key tests of the [while True] loop of [run], on the value returned
    by [cv2.waitKey(1)]; ['s'] is 115, ['S'] 83, ['r'] 114, ['R'] 82, ['q']
    113 and ['Q'] 81. *)
Definition handle_key (self : state) (code : Z) : key_action :=
  let key := Z.land code 255 in
  if (key =? 115)%Z || (key =? 83)%Z then
    match slots self with
    | _ :: _ => SaveAndExit (slots self)
    | [] => NothingToSave
    end
  else if (key =? 114)%Z || (key =? 82)%Z then
    Reset (mkState [] [] (scale_factor self))
  else if (key =? 113)%Z || (key =? 81)%Z then QuitWithoutSaving
  else NoAction.

(** The start of [run] once the first frame is read: the scale factor comes
    from [calculate_display_size]. *)
Definition start (orig_w orig_h screen_width max_display_height : Z)
  : arith_exn + state :=
  match calculate_display_size orig_w orig_h screen_width max_display_height with
  | inl e => inl e
  | inr (_, _, scale) => inr (mkState [] [] scale)
  end.

(** One state change of the drawer while [run] loops: a mouse callback that
    returns, or the reset key. *)
Inductive step : state -> state -> Prop :=
| step_mouse (self self' : state) (event : mouse_event) (x y : Z) :
    mouse_callback self event x y = inr self' -> step self self'
| step_reset (self self' : state) (code : Z) :
    handle_key self code = Reset self' -> step self self'.

Inductive reachable (s0 : state) : state -> Prop :=
| reach_start : reachable s0 s0
| reach_step (s s' : state) : reachable s0 s -> step s s' -> reachable s0 s'.

End SlotDrawer.

(** ** test22.py: the per-frame statistics of [ParkingDetector] *)

Module ParkingStatistics.

(** The [for box in results[0].boxes] loop of [run]: boxes of class 2. *)
Fixpoint car_boxes (boxes : list YOLODetector.yolo_box) : list box :=
  match boxes with
  | [] => []
  | b :: rest =>
      if (YOLODetector.cls b =? 2)%Z
      then YOLODetector.xyxy b :: car_boxes rest
      else car_boxes rest
  end.

(** The [for i, slot in enumerate(self.slots)] loop of [run] that counts
    [self.occupied_slots]; an exception leaves the loop. *)
Fixpoint count_occupied (slots : list (list point)) (boxes : list box)
         (occupied_slots : Z) : result Z :=
  match slots with
  | [] => ok occupied_slots
  | slot :: rest =>
      is_occupied <- ParkingDetector.check_slot_occupancy slot boxes ;;
      count_occupied rest boxes
        (if is_occupied then (occupied_slots + 1)%Z else occupied_slots)
  end.

(** [free_slots] and [occupancy_rate] of [draw_statistics]. *)
Definition statistics (total_slots occupied_slots : Z) : Z * Q :=
  let free_slots := (total_slots - occupied_slots)%Z in
  let occupancy_rate :=
    if (total_slots >? 0)%Z
    then inject_Z occupied_slots / inject_Z total_slots * 100
    else 0 in
  (free_slots, occupancy_rate).

(** One frame of [run]: [total_slots] is [len(self.slots)] since
    [load_slots]; the answer is [(total, occupied, free, rate)]. *)
Definition frame_statistics (slots : list (list point))
           (boxes : list YOLODetector.yolo_box) : result (Z * Z * Z * Q) :=
  let total_slots := Z.of_nat (List.length slots) in
  occupied_slots <- count_occupied slots (car_boxes boxes) 0 ;;
  let '(free_slots, occupancy_rate) := statistics total_slots occupied_slots in
  ok (total_slots, occupied_slots, free_slots, occupancy_rate).

End ParkingStatistics.

(** ** yolo_detector.py: [visualize_detection] *)

Module Visualize.

(** BGR colours. *)
Definition colour : Type := (Z * Z * Z)%type.
Definition red : colour := (0, 0, 255)%Z.
Definition green : colour := (0, 255, 0)%Z.

Definition pyval_eqb (a b : pyval) : bool :=
  match a, b with
  | PNone, PNone => true
  | PInt n, PInt m => (n =? m)%Z
  | PStr s, PStr t => String.eqb s t
  | _, _ => false
  end.

Definition status_eqb (a b : status) : bool :=
  match a, b with
  | occupied, occupied => true
  | vacant, vacant => true
  | _, _ => false
  end.

(** A dict keyed by slot number: [m[k] = v] and [m.get(k)]. *)
Fixpoint dict_put (m : list (pyval * YOLODetector.slot_result)) (k : pyval)
         (v : YOLODetector.slot_result) : list (pyval * YOLODetector.slot_result) :=
  match m with
  | [] => [(k, v)]
  | (k', v') :: m' =>
      if pyval_eqb k' k then (k', v) :: m' else (k', v') :: dict_put m' k v
  end.

Fixpoint dict_find (m : list (pyval * YOLODetector.slot_result)) (k : pyval)
  : option YOLODetector.slot_result :=
  match m with
  | [] => None
  | (k', v') :: m' => if pyval_eqb k' k then Some v' else dict_find m' k
  end.

(** [{r['slot_number']: r for r in results}] *)
Definition result_map (results : list YOLODetector.slot_result)
  : list (pyval * YOLODetector.slot_result) :=
  fold_left (fun m r => dict_put m (YOLODetector.r_slot_number r) r) results [].

(** The colour of a slot: red when the result found for its number is
    occupied, green otherwise. *)
Definition slot_colour (results : list YOLODetector.slot_result) (slot_num : pyval)
  : colour :=
  let is_occupied :=
    match dict_find (result_map results) slot_num with
    | Some r => status_eqb (YOLODetector.r_status r) occupied
    | None => false
    end in
  if is_occupied then red else green.


Section Visualizer.

Variable image : Type.
Variable path_exists : string -> bool.
Variable imread : string -> option image.
Variable shape : image -> Z * Z.
Variable predict : image -> list YOLODetector.yolo_box.

(** The drawing calls, which belong to OpenCV and NumPy and may raise: for a
    vehicle [cv2.rectangle] and [cv2.putText]; for a slot
    [np.array(pixel_coords, np.int32).reshape((-1, 1, 2))], [cv2.polylines],
    [cv2.moments] and [cv2.putText]; at the end [cv2.imwrite]. *)
Variable draw_vehicle : Z * Z * Z * Z -> Q -> result unit.
Variable draw_polygon : list (Z * Z) -> colour -> pyval -> result unit.
Variable imwrite : string -> result unit.




End Visualizer.

End Visualize.

(** ** test22.py with NumPy scalars

    [np.array(polygon)] on the integer points of the slots file is an int64
    array, so the slot box that [polygon_to_bbox] hands to [calculate_iou]
    holds [numpy.int64] values, while a car box holds Python floats.  An
    operation on two int64 values is carried out in int64 and wraps around;
    an operation with a float operand is carried out in floating point
    (read as an exact rational here, as everywhere else).  The integers of
    the slots file are taken to lie in the int64 range. *)

Module ParkingDetectorNp.

Inductive scalar : Type :=
| I64 (n : Z)
| F64 (q : Q).

Definition wrap64 (n : Z) : Z := ((n + 2 ^ 63) mod 2 ^ 64 - 2 ^ 63)%Z.

Definition to_float (a : scalar) : Q :=
  match a with
  | I64 n => inject_Z n
  | F64 q => q
  end.

Definition sub (a b : scalar) : scalar :=
  match a, b with
  | I64 x, I64 y => I64 (wrap64 (x - y))
  | _, _ => F64 (to_float a - to_float b)
  end.

Definition add (a b : scalar) : scalar :=
  match a, b with
  | I64 x, I64 y => I64 (wrap64 (x + y))
  | _, _ => F64 (to_float a + to_float b)
  end.

Definition mul (a b : scalar) : scalar :=
  match a, b with
  | I64 x, I64 y => I64 (wrap64 (x * y))
  | _, _ => F64 (to_float a * to_float b)
  end.

(** [a / b] is true division: the result is a float. *)
Definition true_div (a b : scalar) : scalar := F64 (to_float a / to_float b).

Definition lt (a b : scalar) : bool :=
  match a, b with
  | I64 x, I64 y => (x <? y)%Z
  | _, _ => Qltb (to_float a) (to_float b)
  end.

Definition gt (a b : scalar) : bool := lt b a.

(** [max(a, b)] and [min(a, b)] return one of their arguments, with its
    type. *)
Definition np_max (a b : scalar) : scalar := if gt b a then b else a.
Definition np_min (a b : scalar) : scalar := if lt b a then b else a.

Definition nbox : Type := (scalar * scalar * scalar * scalar)%type.

(** [polygon_to_bbox] on the integer points of a slot. *)
Definition polygon_to_bbox (polygon : list (Z * Z)) : result nbox :=
  match polygon with
  | [] => raise ValueError
  | (x0, y0) :: pts =>
      let xs := map fst pts in
      let ys := map snd pts in
      ok (I64 (fold_left Z.min xs x0), I64 (fold_left Z.min ys y0),
          I64 (fold_left Z.max xs x0), I64 (fold_left Z.max ys y0))
  end.

Definition calculate_iou (box1 box2 : nbox) : scalar :=
  let '(x1_min, y1_min, x1_max, y1_max) := box1 in
  let '(x2_min, y2_min, x2_max, y2_max) := box2 in
  let inter_x_min := np_max x1_min x2_min in
  let inter_y_min := np_max y1_min y2_min in
  let inter_x_max := np_min x1_max x2_max in
  let inter_y_max := np_min y1_max y2_max in
  if lt inter_x_max inter_x_min || lt inter_y_max inter_y_min then F64 0
  else
    let inter_area := mul (sub inter_x_max inter_x_min) (sub inter_y_max inter_y_min) in
    let box1_area := mul (sub x1_max x1_min) (sub y1_max y1_min) in
    let box2_area := mul (sub x2_max x2_min) (sub y2_max y2_min) in
    let union_area := sub (add box1_area box2_area) inter_area in
    if gt union_area (I64 0) then true_div inter_area union_area else F64 0.

(** A car box, as [run] builds it with [map(float, box.xyxy[0])]. *)
Definition car_box (b : box) : nbox :=
  let '(x_min, y_min, x_max, y_max) := b in
  (F64 x_min, F64 y_min, F64 x_max, F64 y_max).

(** A scalar is within a bound when it is a float or an integer of at most
    that magnitude. *)
Definition within (bound : Z) (a : scalar) : Prop :=
  match a with
  | I64 n => (- bound <= n <= bound)%Z
  | F64 _ => True
  end.

End ParkingDetectorNp.

(** A slot of four billion pixels a side, and the car that fills it. *)
Definition vast_polygon : list (Z * Z) :=
  [(0, 0); (4000000000, 0); (4000000000, 4000000000); (0, 4000000000)]%Z.

Definition vast_car_box : box := (0, 0, 4000000000, 4000000000).

(** ** Boxes of moderate size

    Coordinates of magnitude at most [bound], and sides of length at least
    [eps]. *)
Definition coordinates_within (bound : Q) (b : box) : Prop :=
  let '(x_min, y_min, x_max, y_max) := b in
  - bound <= x_min /\ x_min <= bound /\ - bound <= y_min /\ y_min <= bound /\
  - bound <= x_max /\ x_max <= bound /\ - bound <= y_max /\ y_max <= bound.

Definition sides_at_least (eps : Q) (b : box) : Prop :=
  let '(x_min, y_min, x_max, y_max) := b in
  eps <= x_max - x_min /\ eps <= y_max - y_min.

(** The range in which neither the binary64 areas of yolo_detector.py nor
    the int64 areas of test22.py overflow or underflow: coordinates up to
    2^30, lengths from 2^-500. *)
Definition coordinate_bound : Q := inject_Z (2 ^ 30).
Definition smallest_side : Q := 1 # (2 ^ 500).

(** ** Notions used in the statements on the further code *)








(** The drawer holds fewer than four pending points and only slots of
    exactly four points. *)
Definition drawer_well_formed (self : SlotDrawer.state) : Prop :=
  (List.length (SlotDrawer.points self) < 4)%nat /\
  Forall (fun slot => List.length slot = 4%nat) (SlotDrawer.slots self).

(** The boxes of one detector answer, for the statistics example: a car
    that covers the scenario slot and a person. *)
Definition demo_predict_boxes_for_statistics : list YOLODetector.yolo_box :=
  [YOLODetector.mkYoloBox 2 (0, 0, 10, 12) (9 # 10);
   YOLODetector.mkYoloBox 0 (0, 0, 10, 10) (8 # 10)].

(** * Properties *)

(** ** Comparisons *)

Lemma Qltb_lt (a b : Q) : Qltb a b = true <-> a < b.
Proof.
  unfold Qltb. rewrite Qlt_alt. destruct (a ?= b); split; congruence.
Qed.

Lemma Qltb_ge (a b : Q) : Qltb a b = false <-> b <= a.
Proof.
  split; intro H.
  - apply Qnot_lt_le. intro Hlt. apply Qltb_lt in Hlt. congruence.
  - destruct (Qltb a b) eqn:E; trivial.
    apply Qltb_lt in E. apply Qle_not_lt in H. contradiction.
Qed.

Lemma Qgtb_gt (a b : Q) : Qgtb a b = true <-> b < a.
Proof. apply Qltb_lt. Qed.

Lemma Qgtb_le (a b : Q) : Qgtb a b = false <-> a <= b.
Proof. apply Qltb_ge. Qed.

Lemma Qgeb_ge (a b : Q) : Qgeb a b = true <-> b <= a.
Proof.
  unfold Qgeb. split; intro H.
  - apply Qnot_lt_le. rewrite Qlt_alt. destruct (a ?= b); congruence.
  - destruct (a ?= b) eqn:E; trivial.
    apply Qlt_alt in E. apply Qle_not_lt in H. contradiction.
Qed.

Lemma Qgeb_lt (a b : Q) : Qgeb a b = false <-> a < b.
Proof.
  unfold Qgeb. rewrite Qlt_alt. destruct (a ?= b); split; congruence.
Qed.

#[local] Instance Qltb_comp : Proper (Qeq ==> Qeq ==> eq) Qltb.
Proof. intros a a' Ha b b' Hb. unfold Qltb. now rewrite Ha, Hb. Qed.

#[local] Instance Qgeb_comp : Proper (Qeq ==> Qeq ==> eq) Qgeb.
Proof. intros a a' Ha b b' Hb. unfold Qgeb. now rewrite Ha, Hb. Qed.

#[local] Instance Qgtb_comp : Proper (Qeq ==> Qeq ==> eq) Qgtb.
Proof. intros a a' Ha b b' Hb. unfold Qgtb. now rewrite Ha, Hb. Qed.

(** ** Intersection over union *)

Lemma ParkingDetector_iou_same (a b : box) :
  ParkingDetector.calculate_iou a b = YOLODetector.calculate_iou a b.
Proof. reflexivity. Qed.

Section IoU.

Variables box1 box2 : box.

(** The three exits of [calculate_iou]. *)
Lemma iou_early_exit :
  inter_w box1 box2 < 0 \/ inter_h box1 box2 < 0 ->
  YOLODetector.calculate_iou box1 box2 = 0.
Proof.
  destruct box1 as [[[x1_min y1_min] x1_max] y1_max].
  destruct box2 as [[[x2_min y2_min] x2_max] y2_max].
  unfold YOLODetector.calculate_iou, py_max, py_min, inter_w, inter_h. intros H.
  destruct (Qltb (Qmin x1_max x2_max) (Qmax x1_min x2_min)) eqn:Ex; [reflexivity|].
  destruct (Qltb (Qmin y1_max y2_max) (Qmax y1_min y2_min)) eqn:Ey; [reflexivity|].
  apply Qltb_ge in Ex, Ey. lra.
Qed.

Lemma iou_ratio_exit :
  0 <= inter_w box1 box2 -> 0 <= inter_h box1 box2 -> 0 < union_area box1 box2 ->
  YOLODetector.calculate_iou box1 box2 = inter_area box1 box2 / union_area box1 box2.
Proof.
  destruct box1 as [[[x1_min y1_min] x1_max] y1_max].
  destruct box2 as [[[x2_min y2_min] x2_max] y2_max].
  unfold YOLODetector.calculate_iou, py_max, py_min, union_area, inter_area,
    box_area, inter_w, inter_h.
  intros Hw Hh Hu.
  destruct (Qltb (Qmin x1_max x2_max) (Qmax x1_min x2_min)) eqn:Ex.
  { apply Qltb_lt in Ex. lra. }
  destruct (Qltb (Qmin y1_max y2_max) (Qmax y1_min y2_min)) eqn:Ey.
  { apply Qltb_lt in Ey. lra. }
  cbn [orb]. apply Qgtb_gt in Hu. rewrite Hu. reflexivity.
Qed.

Lemma iou_flat_exit :
  0 <= inter_w box1 box2 -> 0 <= inter_h box1 box2 -> union_area box1 box2 <= 0 ->
  YOLODetector.calculate_iou box1 box2 = 0.
Proof.
  destruct box1 as [[[x1_min y1_min] x1_max] y1_max].
  destruct box2 as [[[x2_min y2_min] x2_max] y2_max].
  unfold YOLODetector.calculate_iou, py_max, py_min, union_area, inter_area,
    box_area, inter_w, inter_h.
  intros Hw Hh Hu.
  destruct (Qltb (Qmin x1_max x2_max) (Qmax x1_min x2_min)) eqn:Ex; [reflexivity|].
  destruct (Qltb (Qmin y1_max y2_max) (Qmax y1_min y2_min)) eqn:Ey; [reflexivity|].
  cbn [orb]. apply Qgtb_le in Hu. rewrite Hu. reflexivity.
Qed.

(** Past the guard both boxes are well formed and the overlap rectangle
    fits in each of them. *)
Lemma inter_area_nonneg :
  0 <= inter_w box1 box2 -> 0 <= inter_h box1 box2 -> 0 <= inter_area box1 box2.
Proof. intros. unfold inter_area. now apply Qmult_le_0_compat. Qed.

Lemma inter_le_box1 :
  0 <= inter_w box1 box2 -> 0 <= inter_h box1 box2 ->
  inter_area box1 box2 <= box_area box1.
Proof.
  destruct box1 as [[[x1_min y1_min] x1_max] y1_max].
  destruct box2 as [[[x2_min y2_min] x2_max] y2_max].
  unfold inter_area, box_area, inter_w, inter_h. intros Hw Hh.
  pose proof (Q.le_min_l x1_max x2_max). pose proof (Q.le_max_l x1_min x2_min).
  pose proof (Q.le_min_l y1_max y2_max). pose proof (Q.le_max_l y1_min y2_min).
  apply Qmult_le_compat_nonneg; split; lra.
Qed.

Lemma inter_le_box2 :
  0 <= inter_w box1 box2 -> 0 <= inter_h box1 box2 ->
  inter_area box1 box2 <= box_area box2.
Proof.
  destruct box1 as [[[x1_min y1_min] x1_max] y1_max].
  destruct box2 as [[[x2_min y2_min] x2_max] y2_max].
  unfold inter_area, box_area, inter_w, inter_h. intros Hw Hh.
  pose proof (Q.le_min_r x1_max x2_max). pose proof (Q.le_max_r x1_min x2_min).
  pose proof (Q.le_min_r y1_max y2_max). pose proof (Q.le_max_r y1_min y2_min).
  apply Qmult_le_compat_nonneg; split; lra.
Qed.

Lemma inter_le_union :
  0 <= inter_w box1 box2 -> 0 <= inter_h box1 box2 ->
  inter_area box1 box2 <= union_area box1 box2.
Proof.
  intros Hw Hh.
  pose proof (inter_le_box1 Hw Hh). pose proof (inter_le_box2 Hw Hh).
  pose proof (inter_area_nonneg Hw Hh).
  unfold union_area. lra.
Qed.

(** The exits, by cases. *)
Lemma iou_cases :
  (YOLODetector.calculate_iou box1 box2 = 0) \/
  (0 <= inter_w box1 box2 /\ 0 <= inter_h box1 box2 /\ 0 < union_area box1 box2 /\
   YOLODetector.calculate_iou box1 box2 = inter_area box1 box2 / union_area box1 box2).
Proof.
  destruct (Qlt_le_dec (inter_w box1 box2) 0) as [Hw|Hw].
  { left. apply iou_early_exit. now left. }
  destruct (Qlt_le_dec (inter_h box1 box2) 0) as [Hh|Hh].
  { left. apply iou_early_exit. now right. }
  destruct (Qlt_le_dec 0 (union_area box1 box2)) as [Hu|Hu].
  - right. repeat split; trivial. now apply iou_ratio_exit.
  - left. now apply iou_flat_exit.
Qed.

End IoU.






Lemma iou_range (a b : box) :
  0 <= YOLODetector.calculate_iou a b /\ YOLODetector.calculate_iou a b <= 1.
Proof.
  destruct (iou_cases a b) as [E|(Hw & Hh & Hu & E)]; rewrite E.
  - split; lra.
  - pose proof (inter_area_nonneg a b Hw Hh) as Hi.
    pose proof (inter_le_union a b Hw Hh) as Hle.
    split.
    + apply Qle_shift_div_l; trivial. lra.
    + apply Qle_shift_div_r; trivial. lra.
Qed.

Lemma iou_apart (a b : box) :
  apart_on_some_axis a b -> YOLODetector.calculate_iou a b == 0.
Proof.
  intros Hapart.
  destruct (iou_cases a b) as [E|(Hw & Hh & Hu & E)]; rewrite E; [reflexivity|].
  assert (Hz : inter_area a b == 0).
  { destruct a as [[[x1_min y1_min] x1_max] y1_max].
    destruct b as [[[x2_min y2_min] x2_max] y2_max].
    unfold inter_area, inter_w, inter_h, apart_on_some_axis in *.
    pose proof (Q.le_min_l x1_max x2_max). pose proof (Q.le_min_r x1_max x2_max).
    pose proof (Q.le_max_l x1_min x2_min). pose proof (Q.le_max_r x1_min x2_min).
    pose proof (Q.le_min_l y1_max y2_max). pose proof (Q.le_min_r y1_max y2_max).
    pose proof (Q.le_max_l y1_min y2_min). pose proof (Q.le_max_r y1_min y2_min).
    destruct Hapart as [Ha|[Ha|[Ha|Ha]]].
    - assert (Hx : Qmin x1_max x2_max - Qmax x1_min x2_min == 0) by lra.
      rewrite Hx. ring.
    - assert (Hx : Qmin x1_max x2_max - Qmax x1_min x2_min == 0) by lra.
      rewrite Hx. ring.
    - assert (Hy : Qmin y1_max y2_max - Qmax y1_min y2_min == 0) by lra.
      rewrite Hy. ring.
    - assert (Hy : Qmin y1_max y2_max - Qmax y1_min y2_min == 0) by lra.
      rewrite Hy. ring. }
  rewrite Hz. unfold Qdiv. ring.
Qed.

Lemma iou_self (a : box) :
  proper_box a -> YOLODetector.calculate_iou a a == 1.
Proof.
  intros Hp.
  assert (Hw : inter_w a a > 0 /\ inter_h a a > 0 /\ inter_area a a == box_area a).
  { destruct a as [[[x_min y_min] x_max] y_max].
    unfold inter_area, inter_w, inter_h, box_area, proper_box in *.
    rewrite !Q.min_id, !Q.max_id. destruct Hp. repeat split; try lra. }
  destruct Hw as (Hw & Hh & Hi).
  assert (Hpos : 0 < inter_area a a).
  { unfold inter_area. apply Qmult_lt_0_compat; assumption. }
  assert (Hu : union_area a a == inter_area a a).
  { unfold union_area. rewrite <- Hi. ring. }
  rewrite iou_ratio_exit; try lra.
  rewrite Hu. field. lra.
Qed.

(** ** Claims on [calculate_iou] *)

(** C3: for slot box [0,0,10,10] and vehicle box [5,5,15,15] the IoU is
    25/175; the slot is vacant at threshold 0.30 and occupied at threshold
    0.10, in [check_slot_occupancy] and in the status of the result record
    (and vacant under the fixed 0.30 of test22.py). *)
Theorem C3_scenario_partial_overlap :
  YOLODetector.polygon_to_bbox scenario_polygon = ok (0, 0, 10, 10) /\
  YOLODetector.calculate_iou (0, 0, 10, 10) (5, 5, 15, 15) == 25 # 175 /\
  inter_area (0, 0, 10, 10) (5, 5, 15, 15) == 25 /\
  union_area (0, 0, 10, 10) (5, 5, 15, 15) == 175 /\
  14285 # 100000 < YOLODetector.calculate_iou (0, 0, 10, 10) (5, 5, 15, 15) /\
  YOLODetector.calculate_iou (0, 0, 10, 10) (5, 5, 15, 15) < 14295 # 100000 /\
  (exists m,
      YOLODetector.check_slot_occupancy (30 # 100) scenario_polygon [scenario_vehicle]
      = ok (false, m, Some scenario_vehicle) /\ m == 25 # 175) /\
  (exists m,
      YOLODetector.check_slot_occupancy (10 # 100) scenario_polygon [scenario_vehicle]
      = ok (true, m, Some scenario_vehicle) /\ m == 25 # 175) /\
  yolo_status (30 # 100) scenario_slot 640 480 [scenario_vehicle] = Some vacant /\
  yolo_status (10 # 100) scenario_slot 640 480 [scenario_vehicle] = Some occupied /\
  ParkingDetector.check_slot_occupancy scenario_polygon [(5, 5, 15, 15)] = ok false.
Proof.
  repeat split.
  - eexists; split; [vm_compute; reflexivity | reflexivity].
  - eexists; split; [vm_compute; reflexivity | reflexivity].
Qed.


(** ** test22.py on an int64 slot box

    Within the coordinate bound no int64 operation of [calculate_iou] wraps
    around, and the value is the one computed on unbounded numbers. *)

Section NpExact.

Import ParkingDetectorNp.

Lemma np_lt_exact (a b : scalar) : lt a b = Qltb (to_float a) (to_float b).
Proof.
  destruct a as [x | p], b as [y | q]; try reflexivity.
  unfold lt, Qltb, to_float, Qcompare, inject_Z, Z.ltb; cbn [Qnum Qden].
  now rewrite !Z.mul_1_r.
Qed.

Lemma np_max_exact (a b : scalar) :
  to_float (np_max a b) = Qmax (to_float a) (to_float b).
Proof.
  unfold np_max, gt. rewrite np_lt_exact.
  unfold Qltb, Qmax, GenericMinMax.gmax.
  destruct (to_float a ?= to_float b); reflexivity.
Qed.

Lemma np_min_exact (a b : scalar) :
  to_float (np_min a b) = Qmin (to_float a) (to_float b).
Proof.
  unfold np_min. rewrite np_lt_exact.
  unfold Qltb, Qmin, GenericMinMax.gmin.
  rewrite <- (Qcompare_antisym (to_float a) (to_float b)).
  destruct (to_float a ?= to_float b); reflexivity.
Qed.

Lemma np_max_within (B : Z) (a b : scalar) :
  within B a -> within B b -> within B (np_max a b).
Proof. intros Ha Hb. unfold np_max. now destruct (gt b a). Qed.

Lemma np_min_within (B : Z) (a b : scalar) :
  within B a -> within B b -> within B (np_min a b).
Proof. intros Ha Hb. unfold np_min. now destruct (lt b a). Qed.

Lemma wrap64_small (n : Z) : (- 2 ^ 63 <= n < 2 ^ 63)%Z -> wrap64 n = n.
Proof. intros H. unfold wrap64. rewrite Z.mod_small; lia. Qed.

Lemma np_sub_exact (B : Z) (a b : scalar) :
  (2 * B < 2 ^ 63)%Z -> within B a -> within B b ->
  to_float (sub a b) == to_float a - to_float b /\ within (2 * B) (sub a b).
Proof.
  intros HB Ha Hb.
  destruct a as [x | p], b as [y | q]; unfold within, sub, to_float in *;
    try (split; [reflexivity | exact I]).
  rewrite wrap64_small by lia. split; [| lia].
  unfold Z.sub. rewrite inject_Z_plus, inject_Z_opp. reflexivity.
Qed.

Lemma np_mul_exact (B : Z) (a b : scalar) :
  (B * B < 2 ^ 63)%Z -> within B a -> within B b ->
  to_float (mul a b) == to_float a * to_float b /\ within (B * B) (mul a b).
Proof.
  intros HB Ha Hb.
  destruct a as [x | p], b as [y | q]; unfold within, mul, to_float in *;
    try (split; [reflexivity | exact I]).
  assert (- (B * B) <= x * y <= B * B)%Z by nia.
  rewrite wrap64_small by lia. split; [| lia].
  now rewrite inject_Z_mult.
Qed.

Lemma Qltb_compat (a a' b b' : Q) : a == a' -> b == b' -> Qltb a b = Qltb a' b'.
Proof. intros Ha Hb. unfold Qltb. now rewrite Ha, Hb. Qed.

Lemma np_calculate_iou_exact (x1 y1 x2 y2 : Z) (c : box) :
  within (2 ^ 30) (I64 x1) -> within (2 ^ 30) (I64 y1) ->
  within (2 ^ 30) (I64 x2) -> within (2 ^ 30) (I64 y2) ->
  to_float (calculate_iou (I64 x1, I64 y1, I64 x2, I64 y2) (car_box c)) ==
  ParkingDetector.calculate_iou (inject_Z x1, inject_Z y1, inject_Z x2, inject_Z y2) c.
Proof.
  intros Hx1 Hy1 Hx2 Hy2.
  destruct c as [[[cx1 cy1] cx2] cy2].
  unfold calculate_iou, ParkingDetector.calculate_iou, car_box, py_max, py_min.
  set (ix0 := np_max (I64 x1) (F64 cx1)). set (iy0 := np_max (I64 y1) (F64 cy1)).
  set (ix1 := np_min (I64 x2) (F64 cx2)). set (iy1 := np_min (I64 y2) (F64 cy2)).
  assert (Wx0 : within (2 ^ 30) ix0) by (apply np_max_within; [assumption | exact I]).
  assert (Wy0 : within (2 ^ 30) iy0) by (apply np_max_within; [assumption | exact I]).
  assert (Wx1 : within (2 ^ 30) ix1) by (apply np_min_within; [assumption | exact I]).
  assert (Wy1 : within (2 ^ 30) iy1) by (apply np_min_within; [assumption | exact I]).
  assert (Ex0 : to_float ix0 = Qmax (inject_Z x1) cx1) by apply np_max_exact.
  assert (Ey0 : to_float iy0 = Qmax (inject_Z y1) cy1) by apply np_max_exact.
  assert (Ex1 : to_float ix1 = Qmin (inject_Z x2) cx2) by apply np_min_exact.
  assert (Ey1 : to_float iy1 = Qmin (inject_Z y2) cy2) by apply np_min_exact.
  rewrite !np_lt_exact, Ex0, Ey0, Ex1, Ey1.
  destruct (Qltb _ _ || Qltb _ _); [reflexivity |].
  destruct (np_sub_exact (2 ^ 30) ix1 ix0 eq_refl Wx1 Wx0) as [Ew Ww].
  destruct (np_sub_exact (2 ^ 30) iy1 iy0 eq_refl Wy1 Wy0) as [Eh Wh].
  destruct (np_mul_exact (2 * 2 ^ 30) _ _ eq_refl Ww Wh) as [Ei _].
  destruct (np_sub_exact (2 ^ 30) _ _ eq_refl Hx2 Hx1) as [Ew1 Ww1].
  destruct (np_sub_exact (2 ^ 30) _ _ eq_refl Hy2 Hy1) as [Eh1 Wh1].
  destruct (np_mul_exact (2 * 2 ^ 30) _ _ eq_refl Ww1 Wh1) as [E1 _].
  rewrite Ew, Eh, Ex0, Ey0, Ex1, Ey1 in Ei.
  rewrite Ew1, Eh1 in E1.
  change (to_float (I64 x1)) with (inject_Z x1) in E1.
  change (to_float (I64 y1)) with (inject_Z y1) in E1.
  change (to_float (I64 x2)) with (inject_Z x2) in E1.
  change (to_float (I64 y2)) with (inject_Z y2) in E1.
  set (inter := mul (sub ix1 ix0) (sub iy1 iy0)) in *.
  set (area1 := mul (sub (I64 x2) (I64 x1)) (sub (I64 y2) (I64 y1))) in *.
  change (mul (sub (F64 cx2) (F64 cx1)) (sub (F64 cy2) (F64 cy1)))
    with (F64 ((cx2 - cx1) * (cy2 - cy1))).
  assert (Eu : to_float (sub (add area1 (F64 ((cx2 - cx1) * (cy2 - cy1)))) inter) ==
               (inject_Z x2 - inject_Z x1) * (inject_Z y2 - inject_Z y1)
               + (cx2 - cx1) * (cy2 - cy1)
               - (Qmin (inject_Z x2) cx2 - Qmax (inject_Z x1) cx1)
                 * (Qmin (inject_Z y2) cy2 - Qmax (inject_Z y1) cy1)).
  { rewrite <- Ei, <- E1. destruct area1; reflexivity. }
  unfold gt, Qgtb. rewrite np_lt_exact.
  rewrite (Qltb_compat _ _ _ _ (Qeq_refl (to_float (I64 0))) Eu).
  change (to_float (I64 0)) with 0.
  destruct (Qltb 0 _); [| reflexivity].
  unfold true_div, to_float at 1. now rewrite Eu, Ei.
Qed.

Lemma within_of_bound (n : Z) :
  - coordinate_bound <= inject_Z n -> inject_Z n <= coordinate_bound ->
  within (2 ^ 30) (I64 n).
Proof.
  unfold coordinate_bound, within. rewrite <- inject_Z_opp, <- !Zle_Qle. lia.
Qed.

End NpExact.

Lemma smallest_side_positive : 0 < smallest_side.
Proof. reflexivity. Qed.

Lemma sides_proper (a : box) : sides_at_least smallest_side a -> proper_box a.
Proof.
  destruct a as [[[x_min y_min] x_max] y_max]. unfold sides_at_least, proper_box.
  pose proof smallest_side_positive. lra.
Qed.

(** C5: in yolo_detector.py the value of [calculate_iou] lies in the closed
    interval [0, 1] for every pair of boxes.  In test22.py it does not: the
    slot box is an int64 array, and on the slot of four billion pixels a side
    with the car that fills it the slot area and the overlap area wrap around
    to -2446744073709551616, the union comes out as 16000000000000000000, and
    the value returned is their quotient, which is negative. *)
Theorem C5_int64_slot_area_wraps_below_zero :
  (forall a b : box,
     0 <= YOLODetector.calculate_iou a b /\ YOLODetector.calculate_iou a b <= 1) /\
  ParkingDetectorNp.polygon_to_bbox vast_polygon =
    ok (ParkingDetectorNp.I64 0, ParkingDetectorNp.I64 0,
        ParkingDetectorNp.I64 4000000000, ParkingDetectorNp.I64 4000000000) /\
  ParkingDetectorNp.calculate_iou
    (ParkingDetectorNp.I64 0, ParkingDetectorNp.I64 0,
     ParkingDetectorNp.I64 4000000000, ParkingDetectorNp.I64 4000000000)
    (ParkingDetectorNp.car_box vast_car_box) =
  ParkingDetectorNp.true_div (ParkingDetectorNp.I64 (-2446744073709551616))
                             (ParkingDetectorNp.F64 16000000000000000000) /\
  ParkingDetectorNp.to_float
    (ParkingDetectorNp.calculate_iou
       (ParkingDetectorNp.I64 0, ParkingDetectorNp.I64 0,
        ParkingDetectorNp.I64 4000000000, ParkingDetectorNp.I64 4000000000)
       (ParkingDetectorNp.car_box vast_car_box)) < 0.
Proof.
  split; [intros a b; apply iou_range |].
  split; [reflexivity |].
  split; [vm_compute; reflexivity | vm_compute; reflexivity].
Qed.

(** C6, as stated, fails on a box of zero width: a box compared with itself
    has union area 0 and [calculate_iou] returns 0, not 1. *)
Lemma C6_identical_flat_boxes :
  YOLODetector.calculate_iou (5, 5, 5, 10) (5, 5, 5, 10) == 0 /\
  ~ YOLODetector.calculate_iou (5, 5, 5, 10) (5, 5, 5, 10) == 1.
Proof.
  split; vm_compute; [reflexivity | discriminate].
Qed.

(** C6, amended: [calculate_iou] returns 0 for every pair of boxes that are
    apart on at least one axis, and 1 for every box of moderate size compared
    with itself: coordinates of magnitude at most 2^30, width and height at
    least 2^-500.  In test22.py this is so as well when the first of the two
    identical boxes is the int64 box of a slot and the second the float box
    of a car. *)
Theorem C6_iou_apart_and_identical (a b : box) :
  (apart_on_some_axis a b ->
   YOLODetector.calculate_iou a b == 0 /\ ParkingDetector.calculate_iou a b == 0) /\
  (coordinates_within coordinate_bound a -> sides_at_least smallest_side a ->
   YOLODetector.calculate_iou a a == 1 /\ ParkingDetector.calculate_iou a a == 1) /\
  (forall x_min y_min x_max y_max : Z,
     a = (inject_Z x_min, inject_Z y_min, inject_Z x_max, inject_Z y_max) ->
     coordinates_within coordinate_bound a -> sides_at_least smallest_side a ->
     ParkingDetectorNp.to_float
       (ParkingDetectorNp.calculate_iou
          (ParkingDetectorNp.I64 x_min, ParkingDetectorNp.I64 y_min,
           ParkingDetectorNp.I64 x_max, ParkingDetectorNp.I64 y_max)
          (ParkingDetectorNp.car_box a)) == 1).
Proof.
  split; [| split].
  - intros H; split; [now apply iou_apart | exact (iou_apart a b H)].
  - intros _ H%sides_proper; split; [now apply iou_self | exact (iou_self a H)].
  - intros x_min y_min x_max y_max -> Hc H%sides_proper.
    unfold coordinates_within in Hc.
    destruct Hc as (H1 & H2 & H3 & H4 & H5 & H6 & H7 & H8).
    rewrite np_calculate_iou_exact by now apply within_of_bound.
    exact (iou_self _ H).
Qed.

Lemma C6_iou_apart_and_identical_witness :
  (YOLODetector.calculate_iou (0, 0, 10, 10) (20, 20, 30, 30) == 0 /\
   ParkingDetector.calculate_iou (0, 0, 10, 10) (20, 20, 30, 30) == 0) /\
  (YOLODetector.calculate_iou (0, 0, 10, 10) (0, 0, 10, 10) == 1 /\
   ParkingDetector.calculate_iou (0, 0, 10, 10) (0, 0, 10, 10) == 1) /\
  ParkingDetectorNp.to_float
    (ParkingDetectorNp.calculate_iou
       (ParkingDetectorNp.I64 0, ParkingDetectorNp.I64 0,
        ParkingDetectorNp.I64 10, ParkingDetectorNp.I64 10)
       (ParkingDetectorNp.car_box (0, 0, 10, 10))) == 1.
Proof.
  destruct (C6_iou_apart_and_identical (0, 0, 10, 10) (20, 20, 30, 30))
    as (Hapart & Hself & Hslot).
  assert (Hc : coordinates_within coordinate_bound (0, 0, 10, 10))
    by (vm_compute; repeat split; discriminate).
  assert (Hs : sides_at_least smallest_side (0, 0, 10, 10))
    by (vm_compute; repeat split; discriminate).
  split; [| split].
  - apply Hapart. left. vm_compute. discriminate.
  - now apply Hself.
  - now apply (Hslot 0 0 10 10)%Z.
Defined.

(** ** The matching loop of [check_slot_occupancy] *)

Section BestMatch.

Import YOLODetector.

Variable slot_bbox : box.

Local Abbreviation iou_of v := (calculate_iou slot_bbox (bbox v)) (only parsing).

(** The running maximum never decreases and dominates every vehicle seen. *)
Lemma best_match_upper (vs : list vehicle) (m0 : Q) (mv0 : option vehicle) :
  m0 <= fst (best_match slot_bbox vs m0 mv0) /\
  forall v, In v vs -> iou_of v <= fst (best_match slot_bbox vs m0 mv0).
Proof.
  revert m0 mv0. induction vs as [|v vs IH]; intros m0 mv0; cbn [best_match].
  - split; [apply Qle_refl | intros v []].
  - destruct (Qgtb (calculate_iou slot_bbox (bbox v)) m0) eqn:E.
    + apply Qgtb_gt in E.
      destruct (IH (calculate_iou slot_bbox (bbox v)) (Some v)) as [H1 H2].
      split; [lra|]. intros v' [<-|Hin]; [exact H1 | now apply H2].
    + apply Qgtb_le in E.
      destruct (IH m0 mv0) as [H1 H2].
      split; [exact H1|]. intros v' [<-|Hin]; [lra | now apply H2].
Qed.

(** Either nothing was recorded, or the recorded vehicle's IoU is the
    running maximum and strictly exceeds the starting value. *)
Lemma best_match_record (vs : list vehicle) (m0 : Q) (mv0 : option vehicle) :
  best_match slot_bbox vs m0 mv0 = (m0, mv0) \/
  exists v, In v vs /\ best_match slot_bbox vs m0 mv0 = (iou_of v, Some v) /\
            m0 < iou_of v.
Proof.
  revert m0 mv0. induction vs as [|v vs IH]; intros m0 mv0; cbn [best_match].
  - now left.
  - destruct (Qgtb (calculate_iou slot_bbox (bbox v)) m0) eqn:E.
    + apply Qgtb_gt in E. right.
      destruct (IH (calculate_iou slot_bbox (bbox v)) (Some v))
        as [H|(v' & Hin & H & Hlt)].
      * exists v. repeat split; [now left | exact H | exact E].
      * exists v'. repeat split; [now right | exact H | lra].
    + destruct (IH m0 mv0) as [H|(v' & Hin & H & Hlt)].
      * now left.
      * right. exists v'. repeat split; [now right | exact H | exact Hlt].
Qed.

(** From the start [(0.0, None)], the loop computes the maximum IoU. *)
Lemma best_match_is_max (vs : list vehicle) :
  is_max_iou slot_bbox (map bbox vs) (fst (best_match slot_bbox vs 0 None)).
Proof.
  destruct (best_match_upper vs 0 None) as [H0 Hup].
  split.
  - intros b Hb. apply in_map_iff in Hb. destruct Hb as (v & <- & Hin). now apply Hup.
  - destruct vs as [|v0 vs']; [reflexivity|].
    cbn [map]. set (vs := v0 :: vs') in *.
    destruct (best_match_record vs 0 None) as [H|(v & Hin & H & _)].
    + exists (bbox v0). split; [now left|].
      rewrite H. cbn [fst].
      pose proof (Hup v0 (or_introl eq_refl)) as Hle. rewrite H in Hle. cbn [fst] in Hle.
      pose proof (iou_range slot_bbox (bbox v0)) as [Hge _].
      lra.
    + exists (bbox v). split.
      * change (bbox v0 :: map bbox vs') with (map bbox vs). now apply in_map.
      * rewrite H. reflexivity.
Qed.

(** A vehicle is recorded only with a strictly positive IoU. *)
Lemma best_match_recorded_positive (vs : list vehicle) (m : Q) (v : vehicle) :
  best_match slot_bbox vs 0 None = (m, Some v) -> 0 < m /\ m = iou_of v /\ In v vs.
Proof.
  intros H. destruct (best_match_record vs 0 None) as [H'|(v' & Hin & H' & Hlt)].
  - rewrite H' in H. discriminate.
  - rewrite H' in H. injection H as <- <-. auto.
Qed.

(** When no vehicle has a positive IoU, nothing is recorded. *)
Lemma best_match_all_zero (vs : list vehicle) :
  (forall v, In v vs -> iou_of v == 0) -> best_match slot_bbox vs 0 None = (0, None).
Proof.
  intros Hz. destruct (best_match_record vs 0 None) as [H|(v & Hin & _ & Hlt)]; trivial.
  specialize (Hz v Hin). lra.
Qed.

End BestMatch.

(** ** The running maximum of test22.py *)

Lemma running_max_upper (slot_bbox : box) (bs : list box) (m0 : Q) :
  m0 <= ParkingDetector.running_max slot_bbox bs m0 /\
  forall b, In b bs ->
            YOLODetector.calculate_iou slot_bbox b <= ParkingDetector.running_max slot_bbox bs m0.
Proof.
  revert m0. induction bs as [|b bs IH]; intros m0; cbn [ParkingDetector.running_max].
  - split; [apply Qle_refl | intros b []].
  - unfold py_max.
    destruct (IH (Qmax m0 (ParkingDetector.calculate_iou slot_bbox b))) as [H1 H2].
    pose proof (Q.le_max_l m0 (ParkingDetector.calculate_iou slot_bbox b)) as Hl.
    pose proof (Q.le_max_r m0 (ParkingDetector.calculate_iou slot_bbox b)) as Hr.
    split; [lra|]. intros b' [<-|Hin]; [|now apply H2].
    change (YOLODetector.calculate_iou slot_bbox b)
      with (ParkingDetector.calculate_iou slot_bbox b). lra.
Qed.

Lemma running_max_attained (slot_bbox : box) (bs : list box) (m0 : Q) :
  ParkingDetector.running_max slot_bbox bs m0 == m0 \/
  exists b, In b bs /\
            YOLODetector.calculate_iou slot_bbox b == ParkingDetector.running_max slot_bbox bs m0.
Proof.
  revert m0. induction bs as [|b bs IH]; intros m0; cbn [ParkingDetector.running_max].
  - left. reflexivity.
  - unfold py_max.
    destruct (IH (Qmax m0 (ParkingDetector.calculate_iou slot_bbox b))) as [H|(b' & Hin & H)].
    + destruct (Q.max_spec m0 (ParkingDetector.calculate_iou slot_bbox b)) as [[_ E]|[_ E]].
      * right. exists b. split; [now left|].
        change (YOLODetector.calculate_iou slot_bbox b)
          with (ParkingDetector.calculate_iou slot_bbox b).
        rewrite H, E. reflexivity.
      * left. rewrite H, E. reflexivity.
    + right. exists b'. split; [now right | exact H].
Qed.

Lemma running_max_is_max (slot_bbox : box) (bs : list box) :
  is_max_iou slot_bbox bs (ParkingDetector.running_max slot_bbox bs 0).
Proof.
  destruct (running_max_upper slot_bbox bs 0) as [H0 Hup].
  split; [exact Hup|].
  destruct bs as [|b0 bs']; [reflexivity|].
  destruct (running_max_attained slot_bbox (b0 :: bs') 0) as [H|H]; [|exact H].
  exists b0. split; [now left|].
  pose proof (Hup b0 (or_introl eq_refl)) as Hle.
  pose proof (iou_range slot_bbox b0) as [Hge _]. lra.
Qed.

(** ** The maximum is unique, and 0 without overlap *)

Lemma is_max_iou_unique (slot_bbox : box) (bs : list box) (m1 m2 : Q) :
  is_max_iou slot_bbox bs m1 -> is_max_iou slot_bbox bs m2 -> m1 == m2.
Proof.
  intros [U1 A1] [U2 A2]. destruct bs as [|b0 bs'].
  - rewrite A1, A2. reflexivity.
  - destruct A1 as (b1 & In1 & E1), A2 as (b2 & In2 & E2).
    pose proof (U1 b2 In2). pose proof (U2 b1 In1). lra.
Qed.

Lemma is_max_iou_no_overlap (slot_bbox : box) (bs : list box) (m : Q) :
  overlaps_none slot_bbox bs -> is_max_iou slot_bbox bs m -> m == 0.
Proof.
  intros Hnone [_ A]. destruct bs as [|b0 bs']; [exact A|].
  destruct A as (b & Hin & E). rewrite <- E. apply iou_apart. now apply Hnone.
Qed.

(** ** From [check_slot_occupancy] to the result record *)

Lemma polygon_to_bbox_nonempty (polygon : list point) :
  polygon <> [] -> exists slot_bbox, YOLODetector.polygon_to_bbox polygon = ok slot_bbox.
Proof.
  destruct polygon as [|[x0 y0] pts]; [congruence|]. intros _.
  cbn [YOLODetector.polygon_to_bbox]. eauto.
Qed.

Lemma check_slot_occupancy_unfold (thr : Q) (polygon : list point) (slot_bbox : box)
      (vehicles : list YOLODetector.vehicle) :
  YOLODetector.polygon_to_bbox polygon = ok slot_bbox ->
  YOLODetector.check_slot_occupancy thr polygon vehicles
  = ok (Qgeb (fst (YOLODetector.best_match slot_bbox vehicles 0 None)) thr,
        fst (YOLODetector.best_match slot_bbox vehicles 0 None),
        snd (YOLODetector.best_match slot_bbox vehicles 0 None)).
Proof.
  intros H. unfold YOLODetector.check_slot_occupancy. rewrite H. cbn [bind ok].
  destruct (YOLODetector.best_match slot_bbox vehicles 0 None). reflexivity.
Qed.

Lemma process_slot_record (thr : Q) (s : slot) (img_width img_height : Z)
      (vehicles : list YOLODetector.vehicle) (polygon : list point)
      (is_occupied : bool) (max_iou : Q) (matched : option YOLODetector.vehicle) :
  get_coordinates s <> [] ->
  YOLODetector.pixel_coords (get_coordinates s)
    (get_s_width s img_width) (get_s_height s img_height) = ok polygon ->
  YOLODetector.check_slot_occupancy thr polygon vehicles = ok (is_occupied, max_iou, matched) ->
  fst (YOLODetector.process_slot thr s img_width img_height vehicles)
  = Some (yolo_record s is_occupied max_iou matched).
Proof.
  intros Hne Hpc Hcheck. unfold YOLODetector.process_slot.
  destruct (get_coordinates s) as [|c cs] eqn:Ecs; [congruence|].
  unfold YOLODetector.evaluate_slot. rewrite Ecs, Hpc. cbn [bind ok].
  rewrite Hcheck. cbn [bind ok fst]. reflexivity.
Qed.

(** ** Claims on [check_slot_occupancy] *)

(** C1, as stated, fails for a threshold of 0: the slot of scenario B
    overlaps no vehicle box, its maximum IoU is 0, and [0 >= 0] reports it
    occupied. *)
Lemma C1_no_overlap_reported_occupied :
  overlaps_none (0, 0, 10, 10) (map YOLODetector.bbox [scenario_far_vehicle]) /\
  YOLODetector.check_slot_occupancy 0 scenario_polygon [scenario_far_vehicle]
  = ok (true, 0, None) /\
  yolo_status 0 scenario_slot 640 480 [scenario_far_vehicle] = Some occupied.
Proof.
  split; [|split; reflexivity].
  intros b [<-|[]]. left. vm_compute. discriminate.
Qed.

(** C1, amended: for every slot polygon (with at least one point) and every
    list of vehicle boxes, [check_slot_occupancy] answers occupied if and
    only if the maximum IoU between the slot's bounding box and the vehicle
    boxes is at least the configured threshold, and the result record carries
    that answer as its status; when the threshold is positive, a slot whose
    bounding box overlaps no vehicle box is vacant.  The same holds for
    test22.py with its fixed threshold 0.30. *)
Theorem C1_occupied_iff_max_iou_reaches_threshold
        (occupied_threshold : Q) (slot_polygon : list point)
        (vehicle_boxes : list YOLODetector.vehicle) :
  slot_polygon <> [] ->
  let boxes := map YOLODetector.bbox vehicle_boxes in
  exists slot_bbox is_occupied max_iou matched,
    YOLODetector.polygon_to_bbox slot_polygon = ok slot_bbox /\
    YOLODetector.check_slot_occupancy occupied_threshold slot_polygon vehicle_boxes
    = ok (is_occupied, max_iou, matched) /\
    is_max_iou slot_bbox boxes max_iou /\
    (forall m, is_max_iou slot_bbox boxes m ->
               (is_occupied = true <-> occupied_threshold <= m)) /\
    (forall s img_width img_height,
        get_coordinates s <> [] ->
        YOLODetector.pixel_coords (get_coordinates s)
          (get_s_width s img_width) (get_s_height s img_height) = ok slot_polygon ->
        yolo_status occupied_threshold s img_width img_height vehicle_boxes
        = Some (if is_occupied then occupied else vacant)) /\
    (0 < occupied_threshold -> overlaps_none slot_bbox boxes -> is_occupied = false) /\
    exists is_occupied',
      ParkingDetector.check_slot_occupancy slot_polygon boxes = ok is_occupied' /\
      (forall m, is_max_iou slot_bbox boxes m ->
                 (is_occupied' = true <-> ParkingDetector.OCCUPIED_THRESHOLD <= m)) /\
      (overlaps_none slot_bbox boxes -> is_occupied' = false).
Proof.
  intros Hne boxes.
  destruct (polygon_to_bbox_nonempty slot_polygon Hne) as [slot_bbox Hbbox].
  pose proof (check_slot_occupancy_unfold occupied_threshold slot_polygon slot_bbox
                vehicle_boxes Hbbox) as Hcheck.
  pose proof (best_match_is_max slot_bbox vehicle_boxes) as Hmax.
  set (max_iou := fst (YOLODetector.best_match slot_bbox vehicle_boxes 0 None)) in *.
  set (matched := snd (YOLODetector.best_match slot_bbox vehicle_boxes 0 None)) in *.
  assert (Hiff : forall m, is_max_iou slot_bbox boxes m ->
                           (Qgeb max_iou occupied_threshold = true <-> occupied_threshold <= m)).
  { intros m Hm. rewrite Qgeb_ge.
    pose proof (is_max_iou_unique _ _ _ _ Hmax Hm) as E. rewrite E. reflexivity. }
  exists slot_bbox, (Qgeb max_iou occupied_threshold), max_iou, matched.
  repeat split.
  - exact Hbbox.
  - exact Hcheck.
  - apply Hmax.
  - apply Hmax.
  - now apply Hiff.
  - now apply Hiff.
  - intros s w h Hcs Hpc. unfold yolo_status.
    rewrite (process_slot_record _ _ _ _ _ _ _ _ _ Hcs Hpc Hcheck). reflexivity.
  - intros Hpos Hnone.
    pose proof (is_max_iou_no_overlap _ _ _ Hnone Hmax) as E.
    apply Qgeb_lt. lra.
  - pose proof (running_max_is_max slot_bbox boxes) as Hmax'.
    exists (Qgeb (ParkingDetector.running_max slot_bbox boxes 0)
                 ParkingDetector.OCCUPIED_THRESHOLD).
    split; [|split].
    + unfold ParkingDetector.check_slot_occupancy.
      change (ParkingDetector.polygon_to_bbox slot_polygon)
        with (YOLODetector.polygon_to_bbox slot_polygon).
      rewrite Hbbox. reflexivity.
    + intros m Hm. rewrite Qgeb_ge.
      pose proof (is_max_iou_unique _ _ _ _ Hmax' Hm) as E. rewrite E. reflexivity.
    + intros Hnone.
      pose proof (is_max_iou_no_overlap _ _ _ Hnone Hmax') as E.
      apply Qgeb_lt. unfold ParkingDetector.OCCUPIED_THRESHOLD. lra.
Qed.

Lemma C1_occupied_iff_max_iou_reaches_threshold_witness :
  exists slot_bbox is_occupied max_iou matched,
    YOLODetector.polygon_to_bbox scenario_polygon = ok slot_bbox /\
    YOLODetector.check_slot_occupancy (30 # 100) scenario_polygon [scenario_vehicle]
    = ok (is_occupied, max_iou, matched) /\
    is_max_iou slot_bbox [(5, 5, 15, 15)] max_iou.
Proof.
  destruct (C1_occupied_iff_max_iou_reaches_threshold
              (30 # 100) scenario_polygon [scenario_vehicle])
    as (slot_bbox & is_occupied & max_iou & matched & H1 & H2 & H3 & _).
  - discriminate.
  - exists slot_bbox, is_occupied, max_iou, matched. repeat split; trivial; apply H3.
Defined.

(** C10: [check_slot_occupancy] records a vehicle only when its IoU strictly
    exceeds the running maximum, which starts at 0; so when the maximum IoU
    over all vehicle boxes is 0 the matched vehicle is [None] and the result
    record has no vehicle metadata, whatever detections exist, and with a
    threshold of 0 the slot is nevertheless reported occupied. *)
Theorem C10_zero_iou_has_no_matched_vehicle
        (occupied_threshold : Q) (slot_polygon : list point)
        (vehicle_boxes : list YOLODetector.vehicle) :
  slot_polygon <> [] ->
  exists slot_bbox is_occupied max_iou matched,
    YOLODetector.polygon_to_bbox slot_polygon = ok slot_bbox /\
    YOLODetector.check_slot_occupancy occupied_threshold slot_polygon vehicle_boxes
    = ok (is_occupied, max_iou, matched) /\
    (forall v, matched = Some v ->
               In v vehicle_boxes /\
               0 < YOLODetector.calculate_iou slot_bbox (YOLODetector.bbox v) /\
               max_iou = YOLODetector.calculate_iou slot_bbox (YOLODetector.bbox v)) /\
    (is_max_iou slot_bbox (map YOLODetector.bbox vehicle_boxes) 0 ->
     max_iou = 0 /\ matched = None /\
     (occupied_threshold == 0 -> is_occupied = true) /\
     forall s img_width img_height,
       get_coordinates s <> [] ->
       YOLODetector.pixel_coords (get_coordinates s)
         (get_s_width s img_width) (get_s_height s img_height) = ok slot_polygon ->
       exists r,
         fst (YOLODetector.process_slot occupied_threshold s img_width img_height
                                        vehicle_boxes) = Some r /\
         YOLODetector.r_vehicle_metadata r = None /\
         YOLODetector.r_occupancy_ratio r = 0 /\
         (occupied_threshold == 0 -> YOLODetector.r_status r = occupied)).
Proof.
  intros Hne.
  destruct (polygon_to_bbox_nonempty slot_polygon Hne) as [slot_bbox Hbbox].
  pose proof (check_slot_occupancy_unfold occupied_threshold slot_polygon slot_bbox
                vehicle_boxes Hbbox) as Hcheck.
  destruct (YOLODetector.best_match slot_bbox vehicle_boxes 0 None)
    as [max_iou matched] eqn:Ebest.
  cbn [fst snd] in Hcheck.
  exists slot_bbox, (Qgeb max_iou occupied_threshold), max_iou, matched.
  split; [exact Hbbox|]. split; [exact Hcheck|]. split.
  - intros v ->.
    destruct (best_match_recorded_positive slot_bbox vehicle_boxes max_iou v Ebest)
      as (Hpos & Heq & Hin).
    repeat split; trivial. now rewrite <- Heq.
  - intros [Hup _].
    assert (Hzero : forall v, In v vehicle_boxes ->
                              YOLODetector.calculate_iou slot_bbox (YOLODetector.bbox v) == 0).
    { intros v Hin.
      pose proof (Hup (YOLODetector.bbox v) (in_map _ _ _ Hin)) as Hle.
      pose proof (iou_range slot_bbox (YOLODetector.bbox v)) as [Hge _]. lra. }
    pose proof (best_match_all_zero slot_bbox vehicle_boxes Hzero) as E.
    rewrite E in Ebest. injection Ebest as <- <-.
    assert (Hocc : occupied_threshold == 0 -> Qgeb 0 occupied_threshold = true).
    { intros Hthr. apply Qgeb_ge. lra. }
    repeat split; trivial.
    intros s w h Hcs Hpc.
    exists (yolo_record s (Qgeb 0 occupied_threshold) 0 None).
    split; [exact (process_slot_record _ _ _ _ _ _ _ _ _ Hcs Hpc Hcheck)|].
    repeat split. intros Hthr. cbn. now rewrite (Hocc Hthr).
Qed.

Lemma C10_zero_iou_has_no_matched_vehicle_witness :
  exists is_occupied,
    YOLODetector.check_slot_occupancy 0 scenario_polygon [scenario_far_vehicle]
    = ok (is_occupied, 0, None) /\ is_occupied = true.
Proof.
  destruct (C10_zero_iou_has_no_matched_vehicle 0 scenario_polygon [scenario_far_vehicle])
    as (slot_bbox & is_occupied & max_iou & matched & H1 & H2 & _ & H4).
  - discriminate.
  - injection H1 as <-.
    destruct H4 as (-> & -> & Hocc & _).
    + split.
      * intros b [<-|[]]. vm_compute. discriminate.
      * exists (20, 20, 30, 30). split; [now left | reflexivity].
    + exists is_occupied. split; [exact H2 | now apply Hocc].
Defined.

(** ** The slot loop *)


Lemma yolo_process_slots_cons (thr : Q) (s : slot) (slots : list slot)
      (img_width img_height : Z) (vehicles : list YOLODetector.vehicle) :
  YOLODetector.process_slots thr (s :: slots) img_width img_height vehicles
  = (match fst (YOLODetector.process_slot thr s img_width img_height vehicles) with
     | Some r => r :: fst (YOLODetector.process_slots thr slots img_width img_height vehicles)
     | None => fst (YOLODetector.process_slots thr slots img_width img_height vehicles)
     end,
     snd (YOLODetector.process_slot thr s img_width img_height vehicles)
       :: snd (YOLODetector.process_slots thr slots img_width img_height vehicles)).
Proof.
  cbn [YOLODetector.process_slots].
  destruct (YOLODetector.process_slot thr s img_width img_height vehicles) as [[r|] d];
    destruct (YOLODetector.process_slots thr slots img_width img_height vehicles);
    reflexivity.
Qed.




Section YoloRun.

Variable occupied_threshold : Q.
Variable image : Type.
Variable path_exists : string -> bool.
Variable imread : string -> option image.
Variable shape : image -> Z * Z.
Variable predict : image -> list YOLODetector.yolo_box.

Local Abbreviation run :=
  (YOLODetector.detect_occupancy occupied_threshold image path_exists imread shape predict)
  (only parsing).

(** With a readable frame, [detect_occupancy] is the slot loop. *)
Lemma yolo_run_readable (image_path : string) (img : image) (slots : list slot) :
  path_exists image_path = true ->
  imread image_path = Some img ->
  let vehicles := YOLODetector.extract_vehicles (predict img) in
  let loop := YOLODetector.process_slots occupied_threshold slots
                (snd (shape img)) (fst (shape img)) vehicles in
  run image_path slots
  = (YOLODetector.Processing (List.length slots)
       :: YOLODetector.Detected (List.length vehicles) :: snd loop,
     ok (fst loop)).
Proof.
  intros Hex Hrd vehicles loop. subst loop.
  unfold YOLODetector.detect_occupancy, YOLODetector.detect_vehicles.
  rewrite Hex, Hrd. cbn [negb]. unfold ok. cbn iota.
  destruct (shape img) as [h w]. cbn [fst snd]. fold vehicles.
  destruct (YOLODetector.process_slots occupied_threshold slots w h vehicles).
  reflexivity.
Qed.

(** With an unreadable frame, [detect_occupancy] raises. *)
Lemma yolo_run_unreadable (image_path : string) (slots : list slot) :
  imread image_path = None ->
  snd (run image_path slots)
  = raise (if path_exists image_path then ValueError else FileNotFoundError).
Proof.
  intros Hrd.
  unfold YOLODetector.detect_occupancy, YOLODetector.detect_vehicles.
  rewrite Hrd. destruct (path_exists image_path); reflexivity.
Qed.

End YoloRun.

Section TrackerRun.

Variable threshold_val : Q.
Variable image : Type.
Variable imread : string -> option image.
Variable shape : image -> Z * Z.
Variable preprocess_image : image -> image.
Variable boundingRect : list (Z * Z) -> result (Z * Z * Z * Z).
Variable count_masked : image -> list (Z * Z) -> Z * Z * Z * Z -> result N.
Variable save_debug_frame : string -> image -> option string.

Local Abbreviation slot_step :=
  (ParkingLotTracker.process_slot threshold_val image shape boundingRect count_masked)
  (only parsing).
Local Abbreviation slot_loop :=
  (ParkingLotTracker.process_slots threshold_val image shape boundingRect count_masked)
  (only parsing).
Local Abbreviation run :=
  (ParkingLotTracker.detect_occupancy threshold_val image imread shape preprocess_image
     boundingRect count_masked save_debug_frame)
  (only parsing).

Lemma tracker_process_slots_cons (s : slot) (slots : list slot) (imgPro : image)
      (img_width img_height : Z) :
  slot_loop (s :: slots) imgPro img_width img_height
  = (match fst (slot_step s imgPro img_width img_height) with
     | Some r => r :: fst (slot_loop slots imgPro img_width img_height)
     | None => fst (slot_loop slots imgPro img_width img_height)
     end,
     snd (slot_step s imgPro img_width img_height)
       :: snd (slot_loop slots imgPro img_width img_height)).
Proof.
  cbn [ParkingLotTracker.process_slots].
  destruct (ParkingLotTracker.process_slot _ _ _ _ _ s imgPro img_width img_height)
    as [[r|] d];
    destruct (ParkingLotTracker.process_slots _ _ _ _ _ slots imgPro img_width img_height);
    reflexivity.
Qed.




(** With a readable frame, [detect_occupancy] is the slot loop. *)
Lemma tracker_run_readable (image_path : string) (img : image) (slots : list slot) :
  imread image_path = Some img ->
  let loop := slot_loop slots (preprocess_image img) (snd (shape img)) (fst (shape img)) in
  run image_path slots
  = (ParkingLotTracker.Processing (List.length slots)
       :: ParkingLotTracker.debug_log image save_debug_frame image_path (preprocess_image img)
       ++ snd loop,
     ok (fst loop)).
Proof.
  intros Hrd loop. subst loop.
  unfold ParkingLotTracker.detect_occupancy. rewrite Hrd.
  destruct (shape img) as [h w]. cbn [fst snd].
  destruct (ParkingLotTracker.process_slots _ _ _ _ _ slots (preprocess_image img) w h).
  reflexivity.
Qed.

(** With an unreadable frame, [detect_occupancy] raises [ValueError]. *)
Lemma tracker_run_unreadable (image_path : string) (slots : list slot) :
  imread image_path = None ->
  run image_path slots
  = ([ParkingLotTracker.Processing (List.length slots); ParkingLotTracker.LoadError],
     raise ValueError).
Proof.
  intros Hrd. unfold ParkingLotTracker.detect_occupancy. now rewrite Hrd.
Qed.


End TrackerRun.

(** ** Claims on the geometric strategy and on the evaluation pass *)


(** The geometric strategy on the scenario slot in the example world: 40
    pixels in an 11x11 rectangle are too few for the threshold 900 and
    enough for the threshold 0.25. *)
Example tracker_scenario_statuses :
  map ParkingLotTracker.r_status
    (fst (ParkingLotTracker.process_slots 900 demo_image demo_shape demo_boundingRect
            demo_count_masked [scenario_slot] tt 640 480)) = [vacant] /\
  map ParkingLotTracker.r_status
    (fst (ParkingLotTracker.process_slots (25 # 100) demo_image demo_shape
            demo_boundingRect demo_count_masked [scenario_slot] tt 640 480)) = [occupied].
Proof. split; reflexivity. Qed.

(** C8: when the frame cannot be decoded, [detect_occupancy] raises in both
    strategies and returns no result list. *)
Theorem C8_unreadable_frame_raises
        (threshold_val occupied_threshold : Q) (image : Type)
        (path_exists : string -> bool) (imread : string -> option image)
        (shape : image -> Z * Z) (preprocess_image : image -> image)
        (boundingRect : list (Z * Z) -> result (Z * Z * Z * Z))
        (count_masked : image -> list (Z * Z) -> Z * Z * Z * Z -> result N)
        (save_debug_frame : string -> image -> option string)
        (predict : image -> list YOLODetector.yolo_box)
        (image_path : string) (slots : list slot) :
  imread image_path = None ->
  let tracker := ParkingLotTracker.detect_occupancy threshold_val image imread shape
                   preprocess_image boundingRect count_masked save_debug_frame
                   image_path slots in
  let yolo := YOLODetector.detect_occupancy occupied_threshold image path_exists imread
                shape predict image_path slots in
  snd tracker = raise ValueError /\
  snd yolo = raise (if path_exists image_path then ValueError else FileNotFoundError) /\
  (forall results, snd tracker <> ok results) /\
  (forall results, snd yolo <> ok results).
Proof.
  intros Hrd tracker yolo.
  assert (Ht : snd tracker = raise ValueError).
  { subst tracker. now rewrite tracker_run_unreadable. }
  assert (Hy : snd yolo
               = raise (if path_exists image_path then ValueError else FileNotFoundError)).
  { subst yolo. now apply yolo_run_unreadable. }
  repeat split; trivial.
  - intros results. rewrite Ht. discriminate.
  - intros results. rewrite Hy. discriminate.
Qed.

Lemma C8_unreadable_frame_raises_witness :
  snd (ParkingLotTracker.detect_occupancy 900 demo_image unreadable_imread demo_shape
         demo_preprocess demo_boundingRect demo_count_masked demo_save_debug
         "lot.jpg" [scenario_slot])
  = raise ValueError /\
  snd (YOLODetector.detect_occupancy (30 # 100) demo_image demo_exists unreadable_imread
         demo_shape demo_predict "lot.jpg" [scenario_slot])
  = raise ValueError.
Proof.
  destruct (C8_unreadable_frame_raises 900 (30 # 100) demo_image demo_exists
              unreadable_imread demo_shape demo_preprocess demo_boundingRect
              demo_count_masked demo_save_debug demo_predict "lot.jpg" [scenario_slot])
    as (Ht & Hy & _).
  - reflexivity.
  - split; [exact Ht | exact Hy].
Defined.

(** ** Coordinate entries *)

Lemma dict_get_missing (d : list (string * Q)) (key : string) (default : Q) :
  dict_has d key = false -> dict_get d key default = default.
Proof.
  induction d as [|[k v] d IH]; cbn [dict_has dict_get]; [reflexivity|].
  destruct (String.eqb k key); [discriminate | exact IH].
Qed.

Lemma py_int_zero_times (q : Q) : py_int (0 * q) = 0%Z.
Proof. unfold py_int. cbn [Qmult Qnum Qden]. rewrite Z.mul_0_l. apply Z.quot_0_l. lia. Qed.

(** C9: a dict entry is always converted to a pixel point, never skipped; a
    missing ['x'] or ['y'] reads as 0, so the point lies at 0 on that axis,
    in both strategies.  (An entry of unknown shape, by contrast, is
    skipped.) *)
Theorem C9_missing_dict_key_reads_as_zero
        (d : list (string * Q)) (rest : list coord) (s_width s_height : Q) :
  let x_norm := dict_get d "x" 0 in
  let y_norm := dict_get d "y" 0 in
  YOLODetector.pixel_coords (CoordDict d :: rest) s_width s_height
  = (ps <- YOLODetector.pixel_coords rest s_width s_height ;;
     ok ((x_norm * s_width, y_norm * s_height) :: ps)) /\
  ParkingLotTracker.pixel_coords (CoordDict d :: rest) s_width s_height
  = (ps <- ParkingLotTracker.pixel_coords rest s_width s_height ;;
     ok ((py_int (x_norm * s_width), py_int (y_norm * s_height)) :: ps)) /\
  (dict_has d "x" = false ->
   x_norm = 0 /\ x_norm * s_width == 0 /\ py_int (x_norm * s_width) = 0%Z) /\
  (dict_has d "y" = false ->
   y_norm = 0 /\ y_norm * s_height == 0 /\ py_int (y_norm * s_height) = 0%Z) /\
  YOLODetector.pixel_coords (CoordOther :: rest) s_width s_height
  = YOLODetector.pixel_coords rest s_width s_height /\
  ParkingLotTracker.pixel_coords (CoordOther :: rest) s_width s_height
  = ParkingLotTracker.pixel_coords rest s_width s_height.
Proof.
  intros x_norm y_norm.
  split; [reflexivity|]. split; [reflexivity|]. split; [|split; [|split; reflexivity]].
  - intros Hx. subst x_norm. rewrite (dict_get_missing d "x" 0 Hx).
    split; [reflexivity|]. split; [ring | apply py_int_zero_times].
  - intros Hy. subst y_norm. rewrite (dict_get_missing d "y" 0 Hy).
    split; [reflexivity|]. split; [ring | apply py_int_zero_times].
Qed.

Lemma C9_missing_dict_key_reads_as_zero_witness :
  YOLODetector.pixel_coords [CoordDict [("y"%string, 1 # 2)]] 640 480
  = ok [(dict_get [("y"%string, 1 # 2)] "x" 0 * 640, dict_get [("y"%string, 1 # 2)] "y" 0 * 480)] /\
  dict_get [("y"%string, 1 # 2)] "x" 0 * 640 == 0 /\
  py_int (dict_get [("y"%string, 1 # 2)] "x" 0 * 640) = 0%Z.
Proof.
  destruct (C9_missing_dict_key_reads_as_zero [("y"%string, 1 # 2)] [] 640 480)
    as (Hy & _ & Hx & _).
  split; [exact Hy|].
  destruct Hx as (_ & Hq & Hz); [reflexivity|].
  split; [exact Hq | exact Hz].
Defined.

(** ** Slots with too few points *)


(** * Further properties *)

(** ** More on [calculate_iou] *)

(** X1: a positive IoU needs an overlap rectangle of positive width and
    positive height; and for boxes with coordinates of magnitude at most
    2^30, an overlap rectangle at least 2^-500 wide and high gives a positive
    IoU. *)
Theorem iou_positive_and_interior_overlap (a b : box) :
  (0 < YOLODetector.calculate_iou a b -> 0 < inter_w a b /\ 0 < inter_h a b) /\
  (0 < ParkingDetector.calculate_iou a b -> 0 < inter_w a b /\ 0 < inter_h a b) /\
  (coordinates_within coordinate_bound a -> coordinates_within coordinate_bound b ->
   smallest_side <= inter_w a b -> smallest_side <= inter_h a b ->
   0 < YOLODetector.calculate_iou a b /\ 0 < ParkingDetector.calculate_iou a b).
Proof.
  assert (H : 0 < YOLODetector.calculate_iou a b -> 0 < inter_w a b /\ 0 < inter_h a b).
  { intros Hpos.
    destruct (iou_cases a b) as [E|(Hw & Hh & Hu & E)]; [rewrite E in Hpos; lra|].
    rewrite E in Hpos.
    assert (Hi : 0 < inter_area a b).
    { destruct (Qlt_le_dec 0 (inter_area a b)) as [Hi|Hi]; trivial.
      exfalso. apply (Qlt_not_le _ _ Hpos).
      apply Qle_shift_div_r; trivial. lra. }
    unfold inter_area in Hi.
    destruct (Qlt_le_dec 0 (inter_w a b)) as [Hw'|Hw'].
    + split; trivial.
      destruct (Qlt_le_dec 0 (inter_h a b)) as [Hh'|Hh']; trivial.
      assert (Hz : inter_h a b == 0) by lra. rewrite Hz in Hi. lra.
    + assert (Hz : inter_w a b == 0) by lra. rewrite Hz in Hi. lra. }
  assert (G : smallest_side <= inter_w a b -> smallest_side <= inter_h a b ->
              0 < YOLODetector.calculate_iou a b).
  { intros Hw Hh. pose proof smallest_side_positive as Hs.
    assert (Hw0 : 0 <= inter_w a b) by lra. assert (Hh0 : 0 <= inter_h a b) by lra.
    assert (Hi : 0 < inter_area a b).
    { unfold inter_area. apply Qmult_lt_0_compat; lra. }
    pose proof (inter_le_union a b Hw0 Hh0) as Hle.
    rewrite iou_ratio_exit; try lra.
    apply Qlt_shift_div_l; lra. }
  split; [exact H | split; [exact H |]].
  intros _ _ Hw Hh. split; [now apply G | exact (G Hw Hh)].
Qed.

Lemma iou_positive_and_interior_overlap_witness :
  0 < YOLODetector.calculate_iou (0, 0, 10, 10) (5, 5, 15, 15) /\
  0 < ParkingDetector.calculate_iou (0, 0, 10, 10) (5, 5, 15, 15).
Proof.
  apply (iou_positive_and_interior_overlap (0, 0, 10, 10) (5, 5, 15, 15));
    vm_compute; repeat split; discriminate.
Defined.

(** ** [polygon_to_bbox] *)

Lemma column_min_spec (first : Q) (rest : list Q) :
  (forall v, In v (first :: rest) -> YOLODetector.column_min first rest <= v) /\
  In (YOLODetector.column_min first rest) (first :: rest).
Proof.
  revert first. induction rest as [|w rest IH]; intros first; cbn [YOLODetector.column_min].
  - split; [intros v [<-|[]]; apply Qle_refl | now left].
  - destruct (IH (Qmin first w)) as [Hlow Hin].
    pose proof (Q.le_min_l first w) as Hl. pose proof (Q.le_min_r first w) as Hr.
    pose proof (Hlow _ (or_introl eq_refl)) as H0.
    split.
    + intros v [<-|[<-|Hv]]; [lra | lra |]. apply Hlow. now right.
    + destruct Hin as [E|Hin]; [|right; now right].
      rewrite <- E. unfold Qmin, GenericMinMax.gmin.
      destruct (first ?= w); [now left | now left | right; now left].
Qed.

Lemma column_max_spec (first : Q) (rest : list Q) :
  (forall v, In v (first :: rest) -> v <= YOLODetector.column_max first rest) /\
  In (YOLODetector.column_max first rest) (first :: rest).
Proof.
  revert first. induction rest as [|w rest IH]; intros first; cbn [YOLODetector.column_max].
  - split; [intros v [<-|[]]; apply Qle_refl | now left].
  - destruct (IH (Qmax first w)) as [Hup Hin].
    pose proof (Q.le_max_l first w) as Hl. pose proof (Q.le_max_r first w) as Hr.
    pose proof (Hup _ (or_introl eq_refl)) as H0.
    split.
    + intros v [<-|[<-|Hv]]; [lra | lra |]. apply Hup. now right.
    + destruct Hin as [E|Hin]; [|right; now right].
      rewrite <- E. unfold Qmax, GenericMinMax.gmax.
      destruct (first ?= w); [now left | right; now left | now left].
Qed.

Lemma polygon_to_bbox_envelope (polygon : list point) :
  polygon <> [] ->
  exists x_min y_min x_max y_max,
    YOLODetector.polygon_to_bbox polygon = ok (x_min, y_min, x_max, y_max) /\
    ParkingDetector.polygon_to_bbox polygon = ok (x_min, y_min, x_max, y_max) /\
    (forall x y, In (x, y) polygon ->
                 x_min <= x /\ x <= x_max /\ y_min <= y /\ y <= y_max) /\
    In x_min (map fst polygon) /\ In x_max (map fst polygon) /\
    In y_min (map snd polygon) /\ In y_max (map snd polygon) /\
    x_min <= x_max /\ y_min <= y_max.
Proof.
  destruct polygon as [|[x0 y0] pts]; [congruence|]. intros _.
  destruct (column_min_spec x0 (map fst pts)) as [Hx1 Hx2].
  destruct (column_min_spec y0 (map snd pts)) as [Hy1 Hy2].
  destruct (column_max_spec x0 (map fst pts)) as [Hx3 Hx4].
  destruct (column_max_spec y0 (map snd pts)) as [Hy3 Hy4].
  eexists _, _, _, _. split; [reflexivity|]. split; [reflexivity|].
  cbn [map fst snd]. repeat split; trivial.
  - apply Hx1. change (In (fst (x, y)) (map fst ((x0, y0) :: pts))). now apply in_map.
  - apply Hx3. change (In (fst (x, y)) (map fst ((x0, y0) :: pts))). now apply in_map.
  - apply Hy1. change (In (snd (x, y)) (map snd ((x0, y0) :: pts))). now apply in_map.
  - apply Hy3. change (In (snd (x, y)) (map snd ((x0, y0) :: pts))). now apply in_map.
  - apply Hx3. exact Hx2.
  - apply Hy3. exact Hy2.
Qed.

(** X4: for a polygon with at least one point, [polygon_to_bbox] returns a
    box that contains every point of the polygon, each of whose four bounds
    is the coordinate of some point; so the box is never inverted. *)
Theorem polygon_to_bbox_is_tight_envelope (polygon : list point) :
  polygon <> [] ->
  exists x_min y_min x_max y_max,
    YOLODetector.polygon_to_bbox polygon = ok (x_min, y_min, x_max, y_max) /\
    ParkingDetector.polygon_to_bbox polygon = ok (x_min, y_min, x_max, y_max) /\
    (forall x y, In (x, y) polygon ->
                 x_min <= x /\ x <= x_max /\ y_min <= y /\ y <= y_max) /\
    In x_min (map fst polygon) /\ In x_max (map fst polygon) /\
    In y_min (map snd polygon) /\ In y_max (map snd polygon) /\
    x_min <= x_max /\ y_min <= y_max.
Proof. exact (polygon_to_bbox_envelope polygon). Qed.

Lemma polygon_to_bbox_is_tight_envelope_witness :
  exists x_min y_min x_max y_max,
    YOLODetector.polygon_to_bbox [(3, 9); (7, 1); (5, 5)] = ok (x_min, y_min, x_max, y_max) /\
    x_min <= x_max /\ y_min <= y_max.
Proof.
  destruct (polygon_to_bbox_is_tight_envelope [(3, 9); (7, 1); (5, 5)])
    as (x_min & y_min & x_max & y_max & H1 & _ & _ & _ & _ & _ & _ & Hx & Hy).
  - discriminate.
  - exists x_min, y_min, x_max, y_max. auto.
Defined.

(** ** More on the matching loop *)

Section TieBreak.

Import YOLODetector.

Variable slot_bbox : box.

Local Abbreviation iou_of v := (calculate_iou slot_bbox (bbox v)) (only parsing).

Lemma best_match_first_maximal (vs : list vehicle) (m0 : Q) (mv0 : option vehicle)
      (m : Q) (v : vehicle) :
  best_match slot_bbox vs m0 mv0 = (m, Some v) ->
  (mv0 = Some v /\ m = m0 /\ forall u, In u vs -> iou_of u <= m0) \/
  (exists before after,
      vs = before ++ v :: after /\ m = iou_of v /\ m0 < iou_of v /\
      (forall u, In u before -> iou_of u < iou_of v) /\
      (forall u, In u after -> iou_of u <= iou_of v)).
Proof.
  revert m0 mv0. induction vs as [|w vs IH]; intros m0 mv0; cbn [best_match].
  - intros [= <- ->]. left. repeat split. intros u [].
  - destruct (Qgtb (calculate_iou slot_bbox (bbox w)) m0) eqn:E; intros Hbest.
    + apply Qgtb_gt in E. right.
      destruct (IH _ _ Hbest) as [(Hv & Hm & Hall)|(before & after & -> & Hm & Hlt & Hb & Ha)].
      * injection Hv as <-. exists [], vs. repeat split; trivial. intros u [].
      * exists (w :: before), after. repeat split; trivial; [lra|].
        intros u [<-|Hu]; [exact Hlt | now apply Hb].
    + apply Qgtb_le in E.
      destruct (IH _ _ Hbest) as [(Hv & Hm & Hall)|(before & after & -> & Hm & Hlt & Hb & Ha)].
      * left. repeat split; trivial. intros u [<-|Hu]; [exact E | now apply Hall].
      * right. exists (w :: before), after. repeat split; trivial.
        intros u [<-|Hu]; [lra | now apply Hb].
Qed.

End TieBreak.

(** X5: when several vehicles reach the maximum IoU, [check_slot_occupancy]
    returns the first of them in detection order: every vehicle before the
    matched one has a strictly smaller IoU, none after it has a larger one. *)
Theorem matched_vehicle_is_first_with_max_iou
        (occupied_threshold : Q) (slot_polygon : list point) (slot_bbox : box)
        (vehicle_boxes : list YOLODetector.vehicle)
        (is_occupied : bool) (max_iou : Q) (v : YOLODetector.vehicle) :
  YOLODetector.polygon_to_bbox slot_polygon = ok slot_bbox ->
  YOLODetector.check_slot_occupancy occupied_threshold slot_polygon vehicle_boxes
  = ok (is_occupied, max_iou, Some v) ->
  exists before after,
    vehicle_boxes = before ++ v :: after /\
    max_iou = YOLODetector.calculate_iou slot_bbox (YOLODetector.bbox v) /\
    (forall u, In u before ->
               YOLODetector.calculate_iou slot_bbox (YOLODetector.bbox u) < max_iou) /\
    (forall u, In u after ->
               YOLODetector.calculate_iou slot_bbox (YOLODetector.bbox u) <= max_iou).
Proof.
  intros Hbbox Hcheck.
  rewrite (check_slot_occupancy_unfold _ _ _ _ Hbbox) in Hcheck.
  destruct (YOLODetector.best_match slot_bbox vehicle_boxes 0 None) as [m mv] eqn:E.
  cbn [fst snd] in Hcheck. injection Hcheck as _ -> ->.
  destruct (best_match_first_maximal slot_bbox vehicle_boxes 0 None max_iou v E)
    as [(Hv & _)|(before & after & Hsplit & Hm & _ & Hb & Ha)]; [discriminate|].
  exists before, after. subst max_iou. repeat split; trivial.
Qed.

Lemma matched_vehicle_is_first_with_max_iou_witness :
  exists before after,
    [scenario_far_vehicle; scenario_vehicle; scenario_vehicle]
    = before ++ scenario_vehicle :: after /\
    forall u, In u before ->
              YOLODetector.calculate_iou (0, 0, 10, 10) (YOLODetector.bbox u)
              < YOLODetector.calculate_iou (0, 0, 10, 10) (5, 5, 15, 15).
Proof.
  destruct (matched_vehicle_is_first_with_max_iou (30 # 100) scenario_polygon (0, 0, 10, 10)
              [scenario_far_vehicle; scenario_vehicle; scenario_vehicle]
              false (YOLODetector.calculate_iou (0, 0, 10, 10) (5, 5, 15, 15))
              scenario_vehicle eq_refl eq_refl)
    as (before & after & H1 & _ & H3 & _).
  exists before, after. split; [exact H1 | exact H3].
Defined.

(** ** The verdict as a function of the detections *)

Lemma is_max_iou_nonneg (slot_bbox : box) (bs : list box) (m : Q) :
  is_max_iou slot_bbox bs m -> 0 <= m.
Proof.
  intros [_ A]. destruct bs as [|b0 bs']; [lra|].
  destruct A as (b & _ & E). pose proof (iou_range slot_bbox b) as [Hge _]. lra.
Qed.

Lemma is_max_iou_incl (slot_bbox : box) (bs1 bs2 : list box) (m1 m2 : Q) :
  incl bs1 bs2 -> is_max_iou slot_bbox bs1 m1 -> is_max_iou slot_bbox bs2 m2 -> m1 <= m2.
Proof.
  intros Hincl [U1 A1] H2. destruct bs1 as [|b0 bs1'].
  - pose proof (is_max_iou_nonneg _ _ _ H2). lra.
  - destruct A1 as (b & Hin & E). destruct H2 as [U2 _].
    pose proof (U2 b (Hincl b Hin)). lra.
Qed.

Lemma check_slot_occupancy_max (thr : Q) (polygon : list point) (slot_bbox : box)
      (vehicles : list YOLODetector.vehicle) (is_occupied : bool) (max_iou : Q)
      (matched : option YOLODetector.vehicle) :
  YOLODetector.polygon_to_bbox polygon = ok slot_bbox ->
  YOLODetector.check_slot_occupancy thr polygon vehicles = ok (is_occupied, max_iou, matched) ->
  is_max_iou slot_bbox (map YOLODetector.bbox vehicles) max_iou /\
  is_occupied = Qgeb max_iou thr.
Proof.
  intros Hbbox Hcheck.
  rewrite (check_slot_occupancy_unfold _ _ _ _ Hbbox) in Hcheck.
  injection Hcheck as <- <- _. split; [apply best_match_is_max | reflexivity].
Qed.

(** X6: more detections and a lower threshold never free a slot: if the slot
    is occupied for a list of vehicles at some threshold, it is occupied for
    every list containing those vehicles at every threshold not above it,
    with a maximum IoU at least as large. *)
Theorem occupied_is_monotone_in_detections_and_threshold
        (thr1 thr2 : Q) (slot_polygon : list point)
        (vehicles1 vehicles2 : list YOLODetector.vehicle)
        (max_iou1 : Q) (matched1 : option YOLODetector.vehicle) :
  thr2 <= thr1 ->
  incl vehicles1 vehicles2 ->
  YOLODetector.check_slot_occupancy thr1 slot_polygon vehicles1
  = ok (true, max_iou1, matched1) ->
  exists max_iou2 matched2,
    YOLODetector.check_slot_occupancy thr2 slot_polygon vehicles2
    = ok (true, max_iou2, matched2) /\
    max_iou1 <= max_iou2.
Proof.
  intros Hthr Hincl Hcheck.
  destruct (YOLODetector.polygon_to_bbox slot_polygon) as [e|slot_bbox] eqn:Hbbox.
  { unfold YOLODetector.check_slot_occupancy in Hcheck. rewrite Hbbox in Hcheck.
    discriminate. }
  destruct (check_slot_occupancy_max _ _ _ _ _ _ _ Hbbox Hcheck) as [Hmax1 Hocc1].
  pose proof (check_slot_occupancy_unfold thr2 slot_polygon slot_bbox vehicles2 Hbbox)
    as Hcheck2.
  pose proof (best_match_is_max slot_bbox vehicles2) as Hmax2.
  set (m2 := fst (YOLODetector.best_match slot_bbox vehicles2 0 None)) in *.
  assert (Hle : max_iou1 <= m2).
  { apply (is_max_iou_incl slot_bbox (map YOLODetector.bbox vehicles1)
             (map YOLODetector.bbox vehicles2)); trivial.
    intros b Hb. apply in_map_iff in Hb. destruct Hb as (v & <- & Hv).
    apply in_map. now apply Hincl. }
  symmetry in Hocc1. apply Qgeb_ge in Hocc1.
  assert (Hocc2 : Qgeb m2 thr2 = true) by (apply Qgeb_ge; lra).
  rewrite Hocc2 in Hcheck2. eauto.
Qed.

Lemma occupied_is_monotone_in_detections_and_threshold_witness :
  exists max_iou2 matched2,
    YOLODetector.check_slot_occupancy (5 # 100) scenario_polygon
      [scenario_far_vehicle; scenario_vehicle]
    = ok (true, max_iou2, matched2).
Proof.
  destruct (occupied_is_monotone_in_detections_and_threshold
              (10 # 100) (5 # 100) scenario_polygon [scenario_vehicle]
              [scenario_far_vehicle; scenario_vehicle]
              (YOLODetector.calculate_iou (0, 0, 10, 10) (5, 5, 15, 15))
              (Some scenario_vehicle))
    as (m2 & mv2 & H & _).
  - vm_compute. discriminate.
  - intros v [<-|[]]. right. now left.
  - reflexivity.
  - exists m2, mv2. exact H.
Defined.

(** X7: the verdict and the maximum IoU depend only on which vehicles were
    detected, not on their order or multiplicity (the matched vehicle may
    differ). *)
Theorem verdict_independent_of_detection_order
        (occupied_threshold : Q) (slot_polygon : list point)
        (vehicles1 vehicles2 : list YOLODetector.vehicle) :
  slot_polygon <> [] ->
  (forall v, In v vehicles1 <-> In v vehicles2) ->
  exists is_occupied max_iou1 max_iou2 matched1 matched2,
    YOLODetector.check_slot_occupancy occupied_threshold slot_polygon vehicles1
    = ok (is_occupied, max_iou1, matched1) /\
    YOLODetector.check_slot_occupancy occupied_threshold slot_polygon vehicles2
    = ok (is_occupied, max_iou2, matched2) /\
    max_iou1 == max_iou2.
Proof.
  intros Hne Hsame.
  destruct (polygon_to_bbox_nonempty slot_polygon Hne) as [slot_bbox Hbbox].
  pose proof (check_slot_occupancy_unfold occupied_threshold _ _ vehicles1 Hbbox) as H1.
  pose proof (check_slot_occupancy_unfold occupied_threshold _ _ vehicles2 Hbbox) as H2.
  pose proof (best_match_is_max slot_bbox vehicles1) as M1.
  pose proof (best_match_is_max slot_bbox vehicles2) as M2.
  set (m1 := fst (YOLODetector.best_match slot_bbox vehicles1 0 None)) in *.
  set (m2 := fst (YOLODetector.best_match slot_bbox vehicles2 0 None)) in *.
  assert (Hincl : forall l1 l2 : list YOLODetector.vehicle,
             (forall v, In v l1 -> In v l2) ->
             incl (map YOLODetector.bbox l1) (map YOLODetector.bbox l2)).
  { intros l1 l2 Hl b Hb. apply in_map_iff in Hb. destruct Hb as (v & <- & Hv).
    apply in_map. now apply Hl. }
  assert (E : m1 == m2).
  { apply Qle_antisym.
    - apply (is_max_iou_incl slot_bbox _ _ _ _
               (Hincl vehicles1 vehicles2 (fun v => proj1 (Hsame v))) M1 M2).
    - apply (is_max_iou_incl slot_bbox _ _ _ _
               (Hincl vehicles2 vehicles1 (fun v => proj2 (Hsame v))) M2 M1). }
  assert (Eb : Qgeb m1 occupied_threshold = Qgeb m2 occupied_threshold) by now rewrite E.
  rewrite <- Eb in H2. eauto 10.
Qed.

Lemma verdict_independent_of_detection_order_witness :
  exists is_occupied max_iou1 max_iou2 matched1 matched2,
    YOLODetector.check_slot_occupancy (30 # 100) scenario_polygon
      [scenario_vehicle; scenario_far_vehicle]
    = ok (is_occupied, max_iou1, matched1) /\
    YOLODetector.check_slot_occupancy (30 # 100) scenario_polygon
      [scenario_far_vehicle; scenario_vehicle; scenario_far_vehicle]
    = ok (is_occupied, max_iou2, matched2) /\
    max_iou1 == max_iou2.
Proof.
  apply (verdict_independent_of_detection_order (30 # 100) scenario_polygon
           [scenario_vehicle; scenario_far_vehicle]
           [scenario_far_vehicle; scenario_vehicle; scenario_far_vehicle]).
  - discriminate.
  - intros v. cbn [In]. tauto.
Defined.

(** ** test22.py against yolo_detector.py *)

Lemma running_max_is_best_match (slot_bbox : box) (vs : list YOLODetector.vehicle)
      (m0 : Q) (mv0 : option YOLODetector.vehicle) :
  ParkingDetector.running_max slot_bbox (map YOLODetector.bbox vs) m0
  = fst (YOLODetector.best_match slot_bbox vs m0 mv0).
Proof.
  revert m0 mv0. induction vs as [|v vs IH]; intros m0 mv0; [reflexivity|].
  cbn [map ParkingDetector.running_max YOLODetector.best_match].
  change (ParkingDetector.calculate_iou slot_bbox (YOLODetector.bbox v))
    with (YOLODetector.calculate_iou slot_bbox (YOLODetector.bbox v)).
  unfold py_max, Qmax, GenericMinMax.gmax, Qgtb, Qltb.
  destruct (m0 ?= YOLODetector.calculate_iou slot_bbox (YOLODetector.bbox v)); apply IH.
Qed.

(** X8: the detector of yolo_detector.py run with threshold 0.30 gives the
    verdict of [check_slot_occupancy] of test22.py, for every polygon and
    every list of vehicles, the empty polygon (on which both raise
    [ValueError]) included. *)
Theorem yolo_detector_agrees_with_test22
        (slot_polygon : list point) (vehicle_boxes : list YOLODetector.vehicle) :
  ParkingDetector.check_slot_occupancy slot_polygon (map YOLODetector.bbox vehicle_boxes)
  = ('(is_occupied, _, _) <-
       YOLODetector.check_slot_occupancy (30 # 100) slot_polygon vehicle_boxes ;;
     ok is_occupied).
Proof.
  unfold ParkingDetector.check_slot_occupancy, YOLODetector.check_slot_occupancy.
  change (ParkingDetector.polygon_to_bbox slot_polygon)
    with (YOLODetector.polygon_to_bbox slot_polygon).
  destruct (YOLODetector.polygon_to_bbox slot_polygon) as [e|slot_bbox]; [reflexivity|].
  cbn [bind ok].
  rewrite (running_max_is_best_match slot_bbox vehicle_boxes 0 None).
  destruct (YOLODetector.best_match slot_bbox vehicle_boxes 0 None). reflexivity.
Qed.

(** ** The records of the detection strategy *)

Lemma extract_vehicles_spec (boxes : list YOLODetector.yolo_box) (v : YOLODetector.vehicle) :
  In v (YOLODetector.extract_vehicles boxes) <->
  exists b, In b boxes /\ YOLODetector.cls b = 2%Z /\
            v = YOLODetector.mkVehicle (YOLODetector.xyxy b) (YOLODetector.conf b) "car".
Proof.
  induction boxes as [|b boxes IH]; cbn [YOLODetector.extract_vehicles].
  - split; [intros [] | intros (b & [] & _)].
  - destruct (YOLODetector.cls b =? 2)%Z eqn:E.
    + apply Z.eqb_eq in E. cbn [In]. rewrite IH. split.
      * intros [<-|(b' & Hin & Hc & Hv)]; [exists b; auto | exists b'; auto].
      * intros (b' & [<-|Hin] & Hc & Hv); [left; now rewrite Hv | right; eauto].
    + apply Z.eqb_neq in E. rewrite IH. split.
      * intros (b' & Hin & Hc & Hv). exists b'. cbn [In]. auto.
      * intros (b' & [<-|Hin] & Hc & Hv); [contradiction | eauto].
Qed.

Lemma yolo_process_slots_in (thr : Q) (slots : list slot) (img_width img_height : Z)
      (vehicles : list YOLODetector.vehicle) (r : YOLODetector.slot_result) :
  In r (fst (YOLODetector.process_slots thr slots img_width img_height vehicles)) ->
  exists s, In s slots /\
            fst (YOLODetector.process_slot thr s img_width img_height vehicles) = Some r.
Proof.
  induction slots as [|s slots IH]; [intros []|].
  rewrite yolo_process_slots_cons. cbn [fst].
  destruct (fst (YOLODetector.process_slot thr s img_width img_height vehicles))
    as [r0|] eqn:E.
  - intros [<-|Hin]; [exists s; split; [now left | exact E]|].
    destruct (IH Hin) as (s' & Hs' & Hr). exists s'. split; [now right | exact Hr].
  - intros Hin. destruct (IH Hin) as (s' & Hs' & Hr). exists s'. split; [now right | exact Hr].
Qed.

Lemma yolo_process_slot_inversion (thr : Q) (s : slot) (img_width img_height : Z)
      (vehicles : list YOLODetector.vehicle) (r : YOLODetector.slot_result) :
  fst (YOLODetector.process_slot thr s img_width img_height vehicles) = Some r ->
  exists polygon slot_bbox is_occupied max_iou matched,
    get_coordinates s <> [] /\
    YOLODetector.pixel_coords (get_coordinates s)
      (get_s_width s img_width) (get_s_height s img_height) = ok polygon /\
    YOLODetector.polygon_to_bbox polygon = ok slot_bbox /\
    YOLODetector.check_slot_occupancy thr polygon vehicles
    = ok (is_occupied, max_iou, matched) /\
    r = yolo_record s is_occupied max_iou matched.
Proof.
  unfold YOLODetector.process_slot.
  destruct (get_coordinates s) as [|c cs] eqn:Ecs; [discriminate|].
  unfold YOLODetector.evaluate_slot. rewrite Ecs.
  destruct (YOLODetector.pixel_coords (c :: cs) (get_s_width s img_width)
              (get_s_height s img_height)) as [e|polygon] eqn:Epc; [discriminate|].
  cbn [bind ok].
  destruct (YOLODetector.check_slot_occupancy thr polygon vehicles)
    as [e|[[is_occupied max_iou] matched]] eqn:Echeck; [discriminate|].
  cbn [bind ok fst]. intros [= <-].
  destruct (YOLODetector.polygon_to_bbox polygon) as [e|slot_bbox] eqn:Ebbox.
  { unfold YOLODetector.check_slot_occupancy in Echeck. rewrite Ebbox in Echeck.
    discriminate. }
  exists polygon, slot_bbox, is_occupied, max_iou, matched.
  repeat split; trivial. discriminate.
Qed.

(** X9: with a readable frame, every record returned by the detection
    strategy belongs to one of the input slots, carries a ratio in [0, 1],
    confidence 1 and method "yolo", and is occupied exactly when its ratio
    reaches the threshold. *)
Theorem yolo_records_are_well_formed
        (occupied_threshold : Q) (image : Type) (path_exists : string -> bool)
        (imread : string -> option image) (shape : image -> Z * Z)
        (predict : image -> list YOLODetector.yolo_box)
        (image_path : string) (img : image) (slots : list slot) :
  path_exists image_path = true ->
  imread image_path = Some img ->
  exists results,
    snd (YOLODetector.detect_occupancy occupied_threshold image path_exists imread shape
           predict image_path slots) = ok results /\
    forall r, In r results ->
      (exists s, In s slots /\ YOLODetector.r_slot_id r = get_slot_id s /\
                 YOLODetector.r_slot_number r = get_slot_num s) /\
      0 <= YOLODetector.r_occupancy_ratio r /\ YOLODetector.r_occupancy_ratio r <= 1 /\
      YOLODetector.r_confidence r = 1 /\
      YOLODetector.r_detection_method r = "yolo"%string /\
      (YOLODetector.r_status r = occupied <->
       occupied_threshold <= YOLODetector.r_occupancy_ratio r).
Proof.
  intros Hex Hrd.
  rewrite (yolo_run_readable occupied_threshold image path_exists imread shape predict
             image_path img slots Hex Hrd). cbn [snd].
  eexists. split; [reflexivity|]. intros r Hin.
  destruct (yolo_process_slots_in _ _ _ _ _ _ Hin) as (s & Hs & Hr).
  destruct (yolo_process_slot_inversion _ _ _ _ _ _ Hr)
    as (polygon & slot_bbox & b & m & mv & _ & _ & Hbbox & Hcheck & ->).
  destruct (check_slot_occupancy_max _ _ _ _ _ _ _ Hbbox Hcheck) as [Hmax Hb].
  assert (Hrange : 0 <= m /\ m <= 1).
  { split; [exact (is_max_iou_nonneg _ _ _ Hmax)|].
    destruct Hmax as [_ A].
    destruct (map YOLODetector.bbox (YOLODetector.extract_vehicles (predict img)))
      as [|b0 bs]; [lra|].
    destruct A as (b' & _ & E). pose proof (iou_range slot_bbox b') as [_ Hle]. lra. }
  cbn. repeat split; try apply Hrange.
  - exists s. auto.
  - intros Hst. apply Qgeb_ge. rewrite <- Hb. destruct b; [reflexivity | discriminate].
  - intros Hthr. apply Qgeb_ge in Hthr. rewrite <- Hb in Hthr. now rewrite Hthr.
Qed.

Lemma yolo_records_are_well_formed_witness :
  exists results,
    snd (YOLODetector.detect_occupancy (30 # 100) demo_image demo_exists demo_imread
           demo_shape demo_predict "lot.jpg"
           [scenario_slot; shapeless_slot; two_point_slot]) = ok results /\
    forall r, In r results ->
              0 <= YOLODetector.r_occupancy_ratio r /\ YOLODetector.r_occupancy_ratio r <= 1.
Proof.
  destruct (yolo_records_are_well_formed (30 # 100) demo_image demo_exists demo_imread
              demo_shape demo_predict "lot.jpg" tt
              [scenario_slot; shapeless_slot; two_point_slot] eq_refl eq_refl)
    as (results & H1 & H2).
  exists results. split; [exact H1|]. intros r Hr.
  destruct (H2 r Hr) as (_ & Hlo & Hhi & _). split; assumption.
Defined.

(** X10: vehicle metadata is attached only to occupied slots, repeats the
    record's ratio, which is then positive, and describes one of the cars
    the detector returned (a box of class 2); when the threshold is positive
    every occupied record has its metadata. *)
Theorem yolo_metadata_only_on_occupied_matches
        (occupied_threshold : Q) (image : Type) (path_exists : string -> bool)
        (imread : string -> option image) (shape : image -> Z * Z)
        (predict : image -> list YOLODetector.yolo_box)
        (image_path : string) (img : image) (slots : list slot) :
  path_exists image_path = true ->
  imread image_path = Some img ->
  exists results,
    snd (YOLODetector.detect_occupancy occupied_threshold image path_exists imread shape
           predict image_path slots) = ok results /\
    forall r, In r results ->
      (forall meta, YOLODetector.r_vehicle_metadata r = Some meta ->
         YOLODetector.r_status r = occupied /\
         YOLODetector.meta_iou meta = YOLODetector.r_occupancy_ratio r /\
         0 < YOLODetector.meta_iou meta /\
         exists b, In b (predict img) /\ YOLODetector.cls b = 2%Z /\
                   YOLODetector.bounding_box meta = YOLODetector.xyxy b /\
                   YOLODetector.meta_confidence meta = YOLODetector.conf b) /\
      (0 < occupied_threshold -> YOLODetector.r_status r = occupied ->
       YOLODetector.r_vehicle_metadata r <> None).
Proof.
  intros Hex Hrd.
  rewrite (yolo_run_readable occupied_threshold image path_exists imread shape predict
             image_path img slots Hex Hrd). cbn [snd].
  eexists. split; [reflexivity|]. intros r Hin.
  destruct (yolo_process_slots_in _ _ _ _ _ _ Hin) as (s & Hs & Hr).
  destruct (yolo_process_slot_inversion _ _ _ _ _ _ Hr)
    as (polygon & slot_bbox & b & m & mv & _ & _ & Hbbox & Hcheck & ->).
  pose proof (check_slot_occupancy_max _ _ _ _ _ _ _ Hbbox Hcheck) as [Hmax Hb].
  rewrite (check_slot_occupancy_unfold _ _ _ _ Hbbox) in Hcheck.
  destruct (YOLODetector.best_match slot_bbox
              (YOLODetector.extract_vehicles (predict img)) 0 None) as [m' mv'] eqn:Ebest.
  cbn [fst snd] in Hcheck. injection Hcheck as _ <- <-.
  split.
  - intros meta. cbn. destruct mv' as [v|]; [|discriminate].
    destruct b; [|discriminate]. intros [= <-]. cbn.
    destruct (best_match_recorded_positive _ _ _ _ Ebest) as (Hpos & _ & Hv).
    apply extract_vehicles_spec in Hv. destruct Hv as (yb & Hyb & Hcls & ->).
    repeat split; trivial. exists yb. cbn. auto.
  - intros Hthr. cbn. destruct b; [|discriminate]. intros _.
    destruct mv' as [v|]; [discriminate|].
    exfalso. destruct (best_match_record slot_bbox
                         (YOLODetector.extract_vehicles (predict img)) 0 None)
      as [E|(v & _ & E & _)]; rewrite E in Ebest; [|discriminate].
    injection Ebest as <-. symmetry in Hb. apply Qgeb_ge in Hb. lra.
Qed.

Lemma yolo_metadata_only_on_occupied_matches_witness :
  exists results,
    snd (YOLODetector.detect_occupancy (10 # 100) demo_image demo_exists demo_imread
           demo_shape demo_predict "lot.jpg" [scenario_slot]) = ok results /\
    forall r, In r results -> YOLODetector.r_status r = occupied ->
              YOLODetector.r_vehicle_metadata r <> None.
Proof.
  destruct (yolo_metadata_only_on_occupied_matches (10 # 100) demo_image demo_exists
              demo_imread demo_shape demo_predict "lot.jpg" tt [scenario_slot]
              eq_refl eq_refl)
    as (results & H1 & H2).
  exists results. split; [exact H1|]. intros r Hr.
  destruct (H2 r Hr) as (_ & H). apply H. reflexivity.
Defined.

(** ** Converting coordinate lists *)






(** ** Which slots get a record *)



(** ** Slots that are left out, slots that get a record *)






(** ** Normalized coordinates stay inside the frame *)

Lemma py_int_floor (q : Q) : 0 <= q -> py_int q = Qfloor q.
Proof.
  destruct q as [n d]. unfold Qle, py_int, Qfloor. cbn [Qnum Qden]. intros H.
  apply Z.quot_div_nonneg; lia.
Qed.

Lemma py_int_bounds (q : Q) : 0 <= q -> (0 <= py_int q)%Z /\ inject_Z (py_int q) <= q.
Proof.
  intros H. rewrite (py_int_floor q H). split; [|apply Qfloor_le].
  change 0%Z with (Qfloor 0). now apply Qfloor_resp_le.
Qed.




(** ** Reference dimensions *)

Lemma num_truthy_true (v : option Q) :
  num_truthy v = true <-> exists q, v = Some q /\ ~ q == 0.
Proof.
  unfold num_truthy. destruct v as [q|].
  - destruct (Qeq_bool q 0) eqn:E; cbn [negb].
    + apply Qeq_bool_iff in E. split; [discriminate|]. intros (q' & [= <-] & Hq). contradiction.
    + apply Qeq_bool_neq in E. split; [eauto | reflexivity].
  - split; [discriminate | intros (q & [=] & _)].
Qed.

(** X14: the reference width of a slot is its [image_width] when that is
    present and not zero, else its [imageWidth] when that is present and not
    zero, else the width of the frame; so a stored 0 counts as missing and
    the reference width is never zero on a frame of non-zero width.  The
    height is read the same way. *)
Theorem reference_dimensions_fall_back_to_frame (s : slot) (img_width img_height : Z) :
  (num_truthy (image_width s) = true -> Some (get_s_width s img_width) = image_width s) /\
  (num_truthy (image_width s) = false -> num_truthy (imageWidth s) = true ->
   Some (get_s_width s img_width) = imageWidth s) /\
  (num_truthy (image_width s) = false -> num_truthy (imageWidth s) = false ->
   get_s_width s img_width = inject_Z img_width) /\
  (img_width <> 0%Z -> ~ get_s_width s img_width == 0) /\
  (num_truthy (image_height s) = true -> Some (get_s_height s img_height) = image_height s) /\
  (num_truthy (image_height s) = false -> num_truthy (imageHeight s) = true ->
   Some (get_s_height s img_height) = imageHeight s) /\
  (num_truthy (image_height s) = false -> num_truthy (imageHeight s) = false ->
   get_s_height s img_height = inject_Z img_height) /\
  (img_height <> 0%Z -> ~ get_s_height s img_height == 0).
Proof.
  assert (Hinj : forall z, z <> 0%Z -> ~ inject_Z z == 0).
  { intros z Hz E. unfold Qeq, inject_Z in E. cbn in E. lia. }
  assert (Hgen : forall (a b : option Q) (z : Z),
             let v := match num_or (num_or a b) (Some (inject_Z z)) with
                      | Some q => q
                      | None => inject_Z z
                      end in
             (num_truthy a = true -> Some v = a) /\
             (num_truthy a = false -> num_truthy b = true -> Some v = b) /\
             (num_truthy a = false -> num_truthy b = false -> v = inject_Z z) /\
             (z <> 0%Z -> ~ v == 0)).
  { intros a b z v. subst v. unfold num_or.
    destruct (num_truthy a) eqn:Ea.
    - rewrite Ea. apply num_truthy_true in Ea. destruct Ea as (q & -> & Hq).
      repeat split; try discriminate; auto.
    - destruct (num_truthy b) eqn:Eb.
      + apply num_truthy_true in Eb. destruct Eb as (q & -> & Hq).
        repeat split; try discriminate; auto.
      + repeat split; try discriminate; auto. }
  destruct (Hgen (image_width s) (imageWidth s) img_width) as (W1 & W2 & W3 & W4).
  destruct (Hgen (image_height s) (imageHeight s) img_height) as (H1 & H2 & H3 & H4).
  unfold get_s_width, get_s_height. repeat split; assumption.
Qed.

Lemma reference_dimensions_fall_back_to_frame_witness :
  Some (get_s_width (mkSlot None PNone PNone PNone PNone (Some 0) (Some 800) None None) 640)
  = Some 800 /\
  get_s_height (mkSlot None PNone PNone PNone PNone (Some 0) (Some 800) None None) 480
  = inject_Z 480.
Proof.
  destruct (reference_dimensions_fall_back_to_frame
              (mkSlot None PNone PNone PNone PNone (Some 0) (Some 800) None None) 640 480)
    as (_ & Hw & _ & _ & _ & _ & Hh & _).
  split.
  - exact (Hw eq_refl eq_refl).
  - exact (Hh eq_refl eq_refl).
Defined.

(** ** The geometric strategy *)

(** X15: clipping keeps the corner of the bounding rectangle, never enlarges
    it, leaves a rectangle that already fits untouched, and the clipped
    rectangle never reaches past the bottom or the right edge of the frame;
    its width and height stay non-negative as long as the corner itself is
    inside the frame.  Clipping twice changes nothing more. *)
Theorem clip_rect_fits_frame (x y w h rows cols : Z) :
  exists w' h',
    ParkingLotTracker.clip_rect (x, y, w, h) rows cols = (x, y, w', h') /\
    (x + w' <= cols)%Z /\ (y + h' <= rows)%Z /\
    (w' <= w)%Z /\ (h' <= h)%Z /\
    ((x + w <= cols)%Z -> w' = w) /\ ((y + h <= rows)%Z -> h' = h) /\
    ((0 <= w)%Z -> (x <= cols)%Z -> (0 <= w')%Z) /\
    ((0 <= h)%Z -> (y <= rows)%Z -> (0 <= h')%Z) /\
    ParkingLotTracker.clip_rect (x, y, w', h') rows cols = (x, y, w', h').
Proof.
  unfold ParkingLotTracker.clip_rect.
  destruct (y + h >? rows)%Z eqn:Eh; destruct (x + w >? cols)%Z eqn:Ew;
    eexists _, _; (split; [reflexivity|]);
    rewrite ?Z.gtb_ltb, ?Z.ltb_lt, ?Z.ltb_ge in Eh, Ew;
    repeat match goal with
           | |- _ /\ _ => split
           | |- _ -> _ => intro
           end; try lia;
    repeat match goal with
           | |- context [(?a >? ?b)%Z] =>
               let E := fresh "E" in
               destruct (a >? b)%Z eqn:E;
               rewrite ?Z.gtb_ltb, ?Z.ltb_lt, ?Z.ltb_ge in E
           end; try reflexivity; try lia; f_equal; try lia.
Qed.

(** X16: for a rectangle of non-negative area, more counted pixels never
    turn an occupied slot vacant, under either reading of the threshold. *)
Theorem decide_monotone_in_count (threshold_val : Q) (count count' : N) (w h : Z) :
  (0 <= w * h)%Z -> (count <= count')%N ->
  fst (fst (ParkingLotTracker.decide threshold_val count w h)) = true ->
  fst (fst (ParkingLotTracker.decide threshold_val count' w h)) = true.
Proof.
  intros Harea Hcount. unfold ParkingLotTracker.decide. cbn [fst].
  set (area := if (w * h =? 0)%Z then 1%Z else (w * h)%Z).
  assert (Hpos : 0 < inject_Z area).
  { subst area. destruct (w * h =? 0)%Z eqn:E.
    - reflexivity.
    - apply Z.eqb_neq in E. unfold Qlt, inject_Z. cbn. lia. }
  assert (Hle : inject_Z (Z.of_N count) <= inject_Z (Z.of_N count')).
  { rewrite <- Zle_Qle. lia. }
  destruct (Qgtb threshold_val 1).
  - rewrite !Qgeb_ge. lra.
  - rewrite !Qgtb_gt. intros Hlt.
    apply Qlt_le_trans with (1 := Hlt).
    unfold Qdiv. apply Qmult_le_compat_r; [exact Hle|].
    apply Qlt_le_weak. now apply Qinv_lt_0_compat.
Qed.

Lemma decide_monotone_in_count_witness :
  fst (fst (ParkingLotTracker.decide 900 1200 40 30)) = true.
Proof.
  apply (decide_monotone_in_count 900 900 1200 40 30).
  - vm_compute. discriminate.
  - vm_compute. discriminate.
  - reflexivity.
Defined.

(** X17: when no more pixels are counted than the clipped rectangle holds,
    the reported ratio lies in [0, 1]; a threshold above 1.0 that exceeds
    the rectangle's area, and the threshold 1.0 itself (read as a ratio),
    leave the slot vacant whatever the frame shows. *)
Theorem decide_small_rectangle_never_occupied
        (threshold_val : Q) (count : N) (w h : Z) :
  (0 < w * h)%Z -> (Z.of_N count <= w * h)%Z ->
  let '(is_occupied, ratio, area) := ParkingLotTracker.decide threshold_val count w h in
  area = (w * h)%Z /\ 0 <= ratio /\ ratio <= 1 /\
  (1 < threshold_val -> inject_Z (w * h) < threshold_val -> is_occupied = false) /\
  (threshold_val == 1 -> is_occupied = false).
Proof.
  intros Harea Hcount. unfold ParkingLotTracker.decide.
  assert (E : (w * h =? 0)%Z = false) by (apply Z.eqb_neq; lia). rewrite E.
  assert (Hpos : 0 < inject_Z (w * h)).
  { unfold Qlt, inject_Z. cbn. lia. }
  assert (Hc0 : 0 <= inject_Z (Z.of_N count)).
  { unfold Qle, inject_Z. cbn. lia. }
  assert (Hc1 : inject_Z (Z.of_N count) <= inject_Z (w * h)) by now rewrite <- Zle_Qle.
  assert (Hr0 : 0 <= inject_Z (Z.of_N count) / inject_Z (w * h)).
  { apply Qle_shift_div_l; trivial; lra. }
  assert (Hr1 : inject_Z (Z.of_N count) / inject_Z (w * h) <= 1).
  { apply Qle_shift_div_r; trivial; lra. }
  repeat split; trivial.
  - intros Hgt Hsmall. apply Qgtb_gt in Hgt. rewrite Hgt. apply Qgeb_lt. lra.
  - intros Hone.
    assert (Hmode : Qgtb threshold_val 1 = false) by (apply Qgtb_le; lra).
    rewrite Hmode. apply Qgtb_le. lra.
Qed.

Lemma decide_small_rectangle_never_occupied_witness :
  fst (fst (ParkingLotTracker.decide 900 600 25 30)) = false.
Proof.
  pose proof (decide_small_rectangle_never_occupied 900 600 25 30) as H.
  destruct (ParkingLotTracker.decide 900 600 25 30) as [[is_occupied ratio] area].
  destruct H as (_ & _ & _ & Habs & _).
  - reflexivity.
  - vm_compute. discriminate.
  - cbn [fst]. apply Habs; reflexivity.
Defined.

(** ** The records of the geometric strategy *)

Section TrackerRecords.

Variable threshold_val : Q.
Variable image : Type.
Variable imread : string -> option image.
Variable shape : image -> Z * Z.
Variable preprocess_image : image -> image.
Variable boundingRect : list (Z * Z) -> result (Z * Z * Z * Z).
Variable count_masked : image -> list (Z * Z) -> Z * Z * Z * Z -> result N.
Variable save_debug_frame : string -> image -> option string.

Local Abbreviation slot_step :=
  (ParkingLotTracker.process_slot threshold_val image shape boundingRect count_masked)
  (only parsing).
Local Abbreviation slot_loop :=
  (ParkingLotTracker.process_slots threshold_val image shape boundingRect count_masked)
  (only parsing).

Lemma tracker_process_slots_in (slots : list slot) (imgPro : image)
      (img_width img_height : Z) (r : ParkingLotTracker.slot_result) :
  In r (fst (slot_loop slots imgPro img_width img_height)) ->
  exists s, In s slots /\ fst (slot_step s imgPro img_width img_height) = Some r.
Proof.
  induction slots as [|s slots IH]; [intros []|].
  rewrite tracker_process_slots_cons. cbn [fst].
  destruct (fst (slot_step s imgPro img_width img_height)) as [r0|] eqn:E.
  - intros [<-|Hin]; [exists s; split; [now left | exact E]|].
    destruct (IH Hin) as (s' & Hs' & Hr). exists s'. split; [now right | exact Hr].
  - intros Hin. destruct (IH Hin) as (s' & Hs' & Hr). exists s'. split; [now right | exact Hr].
Qed.

Lemma tracker_process_slot_inversion (s : slot) (imgPro : image)
      (img_width img_height : Z) (r : ParkingLotTracker.slot_result) :
  fst (slot_step s imgPro img_width img_height) = Some r ->
  exists (count : N) (w h : Z),
    r = let '(is_occupied, ratio, area) := ParkingLotTracker.decide threshold_val count w h in
        ParkingLotTracker.mkResult (get_slot_id s) (get_slot_num s)
          (if is_occupied then occupied else vacant) ratio (Z.of_N count) area 1.
Proof.
  unfold ParkingLotTracker.process_slot.
  destruct (get_coordinates s) as [|c cs] eqn:Ecs; [discriminate|].
  unfold ParkingLotTracker.evaluate_slot. rewrite Ecs.
  destruct (ParkingLotTracker.pixel_coords (c :: cs) (get_s_width s img_width)
              (get_s_height s img_height)) as [e|pts]; [discriminate|].
  cbn [bind ok].
  destruct (boundingRect pts) as [e|rect]; [discriminate|]. cbn [bind ok].
  destruct (shape imgPro) as [rows cols].
  destruct (ParkingLotTracker.clip_rect rect rows cols) as [[[x y] w] h].
  destruct (count_masked imgPro pts (x, y, w, h)) as [e|count]; [discriminate|].
  cbn [bind ok]. exists count, w, h.
  destruct (ParkingLotTracker.decide threshold_val count w h) as [[b q] a].
  cbn [fst] in H. now injection H as <-.
Qed.

Lemma tracker_records_hold (image_path : string) (img : image) (slots : list slot) :
  imread image_path = Some img ->
  exists results,
    snd (ParkingLotTracker.detect_occupancy threshold_val image imread shape
           preprocess_image boundingRect count_masked save_debug_frame image_path slots)
    = ok results /\
    forall r, In r results ->
      (exists s, In s slots /\ ParkingLotTracker.r_slot_id r = get_slot_id s /\
                 ParkingLotTracker.r_slot_number r = get_slot_num s) /\
      ParkingLotTracker.r_total_area r <> 0%Z /\
      (0 <= ParkingLotTracker.r_white_pixel_count r)%Z /\
      ParkingLotTracker.r_occupancy_ratio r
      = inject_Z (ParkingLotTracker.r_white_pixel_count r)
        / inject_Z (ParkingLotTracker.r_total_area r) /\
      ParkingLotTracker.r_confidence r = 1 /\
      (1 < threshold_val ->
       (ParkingLotTracker.r_status r = occupied <->
        threshold_val <= inject_Z (ParkingLotTracker.r_white_pixel_count r))) /\
      (~ 1 < threshold_val ->
       (ParkingLotTracker.r_status r = occupied <->
        threshold_val < ParkingLotTracker.r_occupancy_ratio r)).
Proof.
  intros Hrd.
  rewrite (tracker_run_readable threshold_val image imread shape preprocess_image
             boundingRect count_masked save_debug_frame image_path img slots Hrd).
  cbn [snd].
  eexists. split; [reflexivity|]. intros r Hin.
  destruct (tracker_process_slots_in _ _ _ _ _ Hin) as (s & Hs & Hr).
  destruct (tracker_process_slot_inversion _ _ _ _ _ Hr) as (count & w & h & ->).
  unfold ParkingLotTracker.decide.
  set (area := if (w * h =? 0)%Z then 1%Z else (w * h)%Z).
  assert (Harea : area <> 0%Z).
  { subst area. destruct (w * h =? 0)%Z eqn:E; [lia | now apply Z.eqb_neq]. }
  cbn. repeat split; trivial; try lia.
  - exists s. auto.
  - intros Hst. apply Qgtb_gt in H. rewrite H in Hst. apply Qgeb_ge.
    destruct (Qgeb (inject_Z (Z.of_N count)) threshold_val); [reflexivity | discriminate].
  - intros Hge. apply Qgtb_gt in H. rewrite H. apply Qgeb_ge in Hge. now rewrite Hge.
  - intros Hst. apply Qnot_lt_le, Qgtb_le in H. rewrite H in Hst. apply Qgtb_gt.
    destruct (Qgtb (inject_Z (Z.of_N count) / inject_Z area) threshold_val);
      [reflexivity | discriminate].
  - intros Hgt. apply Qnot_lt_le, Qgtb_le in H. rewrite H. apply Qgtb_gt in Hgt.
    now rewrite Hgt.
Qed.

End TrackerRecords.

(** X18: with a readable frame, every record returned by the geometric
    strategy belongs to one of the input slots, has a non-zero total area, a
    non-negative pixel count, confidence 1 and the ratio count / area, and
    its status follows the threshold rule on those very fields. *)
Theorem tracker_records_are_well_formed
        (threshold_val : Q) (image : Type) (imread : string -> option image)
        (shape : image -> Z * Z) (preprocess_image : image -> image)
        (boundingRect : list (Z * Z) -> result (Z * Z * Z * Z))
        (count_masked : image -> list (Z * Z) -> Z * Z * Z * Z -> result N)
        (save_debug_frame : string -> image -> option string)
        (image_path : string) (img : image) (slots : list slot) :
  imread image_path = Some img ->
  exists results,
    snd (ParkingLotTracker.detect_occupancy threshold_val image imread shape
           preprocess_image boundingRect count_masked save_debug_frame image_path slots)
    = ok results /\
    forall r, In r results ->
      (exists s, In s slots /\ ParkingLotTracker.r_slot_id r = get_slot_id s /\
                 ParkingLotTracker.r_slot_number r = get_slot_num s) /\
      ParkingLotTracker.r_total_area r <> 0%Z /\
      (0 <= ParkingLotTracker.r_white_pixel_count r)%Z /\
      ParkingLotTracker.r_occupancy_ratio r
      = inject_Z (ParkingLotTracker.r_white_pixel_count r)
        / inject_Z (ParkingLotTracker.r_total_area r) /\
      ParkingLotTracker.r_confidence r = 1 /\
      (1 < threshold_val ->
       (ParkingLotTracker.r_status r = occupied <->
        threshold_val <= inject_Z (ParkingLotTracker.r_white_pixel_count r))) /\
      (~ 1 < threshold_val ->
       (ParkingLotTracker.r_status r = occupied <->
        threshold_val < ParkingLotTracker.r_occupancy_ratio r)).
Proof.
  apply tracker_records_hold.
Qed.

Lemma tracker_records_are_well_formed_witness :
  exists results,
    snd (ParkingLotTracker.detect_occupancy 900 demo_image demo_imread demo_shape
           demo_preprocess demo_boundingRect demo_count_masked demo_save_debug "lot.jpg"
           [scenario_slot; empty_slot; two_point_slot]) = ok results /\
    forall r, In r results -> ParkingLotTracker.r_total_area r <> 0%Z.
Proof.
  destruct (tracker_records_are_well_formed 900 demo_image demo_imread demo_shape
              demo_preprocess demo_boundingRect demo_count_masked demo_save_debug
              "lot.jpg" tt [scenario_slot; empty_slot; two_point_slot] eq_refl)
    as (results & H1 & H2).
  exists results. split; [exact H1|]. intros r Hr. now destruct (H2 r Hr) as (_ & H & _).
Defined.

(** ** test22.py: the display size *)

Lemma py_div_nonzero (a b : Q) : ~ b == 0 -> py_div a b = inr (a / b).
Proof.
  intros Hb. unfold py_div. destruct (Qeq_bool b 0) eqn:E; [|reflexivity].
  apply Qeq_bool_iff in E. contradiction.
Qed.

Lemma py_div_zero (a b : Q) : b == 0 -> py_div a b = inl ZeroDivisionError.
Proof.
  intros Hb. unfold py_div. apply Qeq_bool_iff in Hb. now rewrite Hb.
Qed.

Lemma inject_Z_pos (z : Z) : (0 < z)%Z -> 0 < inject_Z z.
Proof. intros H. unfold Qlt, inject_Z. cbn. lia. Qed.

Lemma inject_Z_nonneg (z : Z) : (0 <= z)%Z -> 0 <= inject_Z z.
Proof. intros H. unfold Qle, inject_Z. cbn. lia. Qed.

Lemma py_int_le_Z (q : Q) (z : Z) : 0 <= q -> q <= inject_Z z -> (py_int q <= z)%Z.
Proof.
  intros H0 Hq. destruct (py_int_bounds q H0) as [_ Hb].
  rewrite Zle_Qle. lra.
Qed.

(** X19: for a video of positive width and height and a non-negative
    screen budget, [calculate_display_size] returns a size that fits the
    budget in both dimensions, with a non-negative scale that is at most
    either ratio; it raises [ZeroDivisionError] exactly when the video's
    width or height is 0. *)
Theorem display_size_fits_screen (original_width original_height max_width max_height : Z) :
  ((0 < original_width)%Z -> (0 < original_height)%Z ->
   (0 <= max_width)%Z -> (0 <= max_height)%Z ->
   exists new_width new_height scale,
     calculate_display_size original_width original_height max_width max_height
     = inr (new_width, new_height, scale) /\
     (0 <= new_width <= max_width)%Z /\ (0 <= new_height <= max_height)%Z /\
     0 <= scale /\
     scale <= inject_Z max_width / inject_Z original_width /\
     scale <= inject_Z max_height / inject_Z original_height) /\
  (calculate_display_size original_width original_height max_width max_height
   = inl ZeroDivisionError <-> original_width = 0%Z \/ original_height = 0%Z).
Proof.
  split.
  - intros Hw Hh Hmw Hmh.
    pose proof (inject_Z_pos _ Hw) as Qw. pose proof (inject_Z_pos _ Hh) as Qh.
    pose proof (inject_Z_nonneg _ Hmw) as Qmw. pose proof (inject_Z_nonneg _ Hmh) as Qmh.
    unfold calculate_display_size.
    rewrite (py_div_nonzero (inject_Z max_width) (inject_Z original_width)) by lra.
    rewrite (py_div_nonzero (inject_Z max_height) (inject_Z original_height)) by lra.
    set (ws := inject_Z max_width / inject_Z original_width).
    set (hs := inject_Z max_height / inject_Z original_height).
    assert (Hws : 0 <= ws) by (apply Qle_shift_div_l; trivial; lra).
    assert (Hhs : 0 <= hs) by (apply Qle_shift_div_l; trivial; lra).
    unfold py_min.
    pose proof (Q.le_min_l ws hs) as Hl. pose proof (Q.le_min_r ws hs) as Hr.
    assert (Hs0 : 0 <= Qmin ws hs).
    { destruct (Q.min_spec ws hs) as [[_ E]|[_ E]]; rewrite E; assumption. }
    assert (Hnw0 : 0 <= inject_Z original_width * Qmin ws hs)
      by (apply Qmult_le_0_compat; lra).
    assert (Hnh0 : 0 <= inject_Z original_height * Qmin ws hs)
      by (apply Qmult_le_0_compat; lra).
    assert (Hnw1 : inject_Z original_width * Qmin ws hs <= inject_Z max_width).
    { apply Qle_trans with (inject_Z original_width * ws).
      - apply Qmult_le_l; assumption.
      - subst ws. apply Qle_lteq. right. field. lra. }
    assert (Hnh1 : inject_Z original_height * Qmin ws hs <= inject_Z max_height).
    { apply Qle_trans with (inject_Z original_height * hs).
      - apply Qmult_le_l; assumption.
      - subst hs. apply Qle_lteq. right. field. lra. }
    eexists _, _, _. split; [reflexivity|].
    repeat split; trivial.
    + now apply py_int_bounds.
    + now apply py_int_le_Z.
    + now apply py_int_bounds.
    + now apply py_int_le_Z.
  - unfold calculate_display_size, py_div.
    destruct (Qeq_bool (inject_Z original_width) 0) eqn:Ew.
    + apply Qeq_bool_iff in Ew. unfold Qeq, inject_Z in Ew. cbn in Ew.
      split; [intros _; left; lia | reflexivity].
    + apply Qeq_bool_neq in Ew.
      destruct (Qeq_bool (inject_Z original_height) 0) eqn:Eh.
      * apply Qeq_bool_iff in Eh. unfold Qeq, inject_Z in Eh. cbn in Eh.
        split; [intros _; right; lia | reflexivity].
      * apply Qeq_bool_neq in Eh. split; [discriminate|].
        intros [->| ->]; exfalso; [apply Ew | apply Eh]; reflexivity.
Qed.

Lemma display_size_fits_screen_witness :
  exists new_width new_height scale,
    calculate_display_size 1920 1080 1366 691 = inr (new_width, new_height, scale) /\
    (0 <= new_width <= 1366)%Z /\ (0 <= new_height <= 691)%Z.
Proof.
  destruct (display_size_fits_screen 1920 1080 1366 691) as [Hfit _].
  destruct Hfit as (nw & nh & sc & H1 & H2 & H3 & _); try lia.
  exists nw, nh, sc. auto.
Defined.

(** ** test22.py: the slot drawer *)

Lemma removelast_length_lt {A} (l : list A) :
  l <> [] -> S (List.length (removelast l)) = List.length l.
Proof.
  induction l as [|a l IH]; [congruence|]. intros _.
  destruct l as [|b l]; [reflexivity|].
  cbn [removelast List.length] in *. f_equal. apply IH. discriminate.
Qed.

Lemma Forall_removelast {A} (P : A -> Prop) (l : list A) :
  Forall P l -> Forall P (removelast l).
Proof.
  induction 1 as [|a l Ha Hl IH]; [constructor|].
  destruct l as [|b l]; [constructor|].
  cbn [removelast] in *. constructor; assumption.
Qed.

Lemma mouse_callback_keeps_well_formed (self self' : SlotDrawer.state)
      (event : SlotDrawer.mouse_event) (x y : Z) :
  drawer_well_formed self ->
  SlotDrawer.mouse_callback self event x y = inr self' ->
  drawer_well_formed self' /\ SlotDrawer.scale_factor self' = SlotDrawer.scale_factor self.
Proof.
  intros [Hpts Hslots]. unfold SlotDrawer.mouse_callback.
  destruct event.
  - destruct (py_div (inject_Z x) (SlotDrawer.scale_factor self)) as [e|qx]; [discriminate|].
    destruct (py_div (inject_Z y) (SlotDrawer.scale_factor self)) as [e|qy]; [discriminate|].
    destruct (List.length (SlotDrawer.points self ++ [(py_int qx, py_int qy)]) =? 4)%nat
      eqn:E; intros [= <-]; unfold drawer_well_formed;
      cbn [SlotDrawer.points SlotDrawer.slots SlotDrawer.scale_factor List.length];
      (split; [split|reflexivity]).
    + lia.
    + apply Forall_app. split; [assumption|]. constructor; [|constructor].
      now apply Nat.eqb_eq in E.
    + apply Nat.eqb_neq in E. rewrite length_app in *. cbn [List.length] in *. lia.
    + assumption.
  - destruct (SlotDrawer.points self) as [|p ps] eqn:Ep.
    + destruct (SlotDrawer.slots self) as [|sl sls] eqn:Es; intros [= <-];
        unfold drawer_well_formed.
      * split; [split|reflexivity]; [rewrite Ep; cbn; lia | now rewrite Es].
      * cbn [SlotDrawer.points SlotDrawer.slots SlotDrawer.scale_factor List.length].
        split; [split|reflexivity]; [lia | exact (Forall_removelast _ (sl :: sls) Hslots)].
    + intros [= <-]. unfold drawer_well_formed.
      cbn [SlotDrawer.points SlotDrawer.slots SlotDrawer.scale_factor].
      split; [split|reflexivity]; [|assumption].
      change (List.length (removelast (p :: ps)) < 4)%nat.
      pose proof (removelast_length_lt (p :: ps) ltac:(discriminate)). lia.
  - intros [= <-]. split; [split|]; trivial.
Qed.

Lemma reachable_well_formed (s0 s : SlotDrawer.state) :
  drawer_well_formed s0 -> SlotDrawer.reachable s0 s ->
  drawer_well_formed s /\ SlotDrawer.scale_factor s = SlotDrawer.scale_factor s0.
Proof.
  intros H0. induction 1 as [|s s' Hreach [IHwf IHsf] Hstep]; [split; trivial|].
  destruct Hstep as [s s' event x y Hcb|s s' code Hkey].
  - destruct (mouse_callback_keeps_well_formed _ _ _ _ _ IHwf Hcb) as [Hwf Hsf].
    split; [exact Hwf | congruence].
  - unfold SlotDrawer.handle_key in Hkey.
    destruct ((Z.land code 255 =? 115)%Z || (Z.land code 255 =? 83)%Z).
    { destruct (SlotDrawer.slots s); discriminate. }
    destruct ((Z.land code 255 =? 114)%Z || (Z.land code 255 =? 82)%Z).
    + injection Hkey as <-. unfold drawer_well_formed.
      cbn [SlotDrawer.points SlotDrawer.slots SlotDrawer.scale_factor List.length].
      split; [split; [lia | constructor] | exact IHsf].
    + destruct ((Z.land code 255 =? 113)%Z || (Z.land code 255 =? 81)%Z); discriminate.
Qed.

(** X20: whatever sequence of mouse events and reset keys the drawer goes
    through from its initial state (or from the state [run] starts in), it
    always holds fewer than four pending points, every completed slot has
    exactly four points, and the scale factor never changes. *)
Theorem drawer_slots_always_have_four_points (s0 s : SlotDrawer.state) :
  SlotDrawer.points s0 = [] -> SlotDrawer.slots s0 = [] ->
  SlotDrawer.reachable s0 s ->
  drawer_well_formed s /\ SlotDrawer.scale_factor s = SlotDrawer.scale_factor s0.
Proof.
  intros Hp Hs. apply reachable_well_formed.
  split; [rewrite Hp; cbn; lia | rewrite Hs; constructor].
Qed.

(** Four clicks from the initial state, as a run of steps. *)
Lemma four_clicks_reachable :
  SlotDrawer.reachable SlotDrawer.init
    (SlotDrawer.mkState [] [[(10, 10); (50, 10); (50, 30); (10, 30)]%Z] 1).
Proof.
  eapply SlotDrawer.reach_step;
    [eapply SlotDrawer.reach_step;
     [eapply SlotDrawer.reach_step;
      [eapply SlotDrawer.reach_step; [apply SlotDrawer.reach_start|] |] |] |].
  - apply (SlotDrawer.step_mouse _ _ SlotDrawer.EVENT_LBUTTONDOWN 10 10). reflexivity.
  - apply (SlotDrawer.step_mouse _ _ SlotDrawer.EVENT_LBUTTONDOWN 50 10). reflexivity.
  - apply (SlotDrawer.step_mouse _ _ SlotDrawer.EVENT_LBUTTONDOWN 50 30). reflexivity.
  - apply (SlotDrawer.step_mouse _ _ SlotDrawer.EVENT_LBUTTONDOWN 10 30). reflexivity.
Qed.

Lemma drawer_slots_always_have_four_points_witness :
  drawer_well_formed
    (SlotDrawer.mkState [] [[(10, 10); (50, 10); (50, 30); (10, 30)]%Z] 1).
Proof.
  apply (drawer_slots_always_have_four_points SlotDrawer.init _ eq_refl eq_refl
           four_clicks_reachable).
Defined.

(** X21: the save key writes a file only when at least one slot is
    complete, and the file then holds nothing but four-point slots; pending
    points are never saved. *)
Theorem saved_file_holds_only_complete_slots
        (s0 s : SlotDrawer.state) (code : Z) (file : list (list (Z * Z))) :
  SlotDrawer.points s0 = [] -> SlotDrawer.slots s0 = [] ->
  SlotDrawer.reachable s0 s ->
  SlotDrawer.handle_key s code = SlotDrawer.SaveAndExit file ->
  file <> [] /\ file = SlotDrawer.slots s /\
  Forall (fun slot => List.length slot = 4%nat) file.
Proof.
  intros Hp Hs Hreach Hkey.
  assert (Hwf0 : drawer_well_formed s0).
  { split; [rewrite Hp; cbn; lia | rewrite Hs; constructor]. }
  destruct (reachable_well_formed s0 s Hwf0 Hreach) as [[_ Hslots] _].
  unfold SlotDrawer.handle_key in Hkey.
  destruct ((Z.land code 255 =? 115)%Z || (Z.land code 255 =? 83)%Z).
  - destruct (SlotDrawer.slots s) as [|sl sls] eqn:E; [discriminate|].
    injection Hkey as <-. repeat split; trivial. discriminate.
  - destruct ((Z.land code 255 =? 114)%Z || (Z.land code 255 =? 82)%Z); [discriminate|].
    destruct ((Z.land code 255 =? 113)%Z || (Z.land code 255 =? 81)%Z); discriminate.
Qed.

Lemma saved_file_holds_only_complete_slots_witness :
  [[(10, 10); (50, 10); (50, 30); (10, 30)]%Z] <> [] /\
  Forall (fun slot : list (Z * Z) => List.length slot = 4%nat)
         [[(10, 10); (50, 10); (50, 30); (10, 30)]%Z].
Proof.
  destruct (saved_file_holds_only_complete_slots SlotDrawer.init
              (SlotDrawer.mkState [] [[(10, 10); (50, 10); (50, 30); (10, 30)]%Z] 1)
              115 [[(10, 10); (50, 10); (50, 30); (10, 30)]%Z]
              eq_refl eq_refl four_clicks_reachable eq_refl) as (H1 & _ & H3).
  split; assumption.
Defined.

(** X22: a right click undoes the left click before it as long as that
    click did not complete a slot; after the fourth point the same right
    click removes the whole new slot, so the three earlier points are gone
    as well. *)
Theorem right_click_undoes_left_click
        (self : SlotDrawer.state) (x y x' y' : Z) :
  ~ SlotDrawer.scale_factor self == 0 ->
  ((List.length (SlotDrawer.points self) < 3)%nat ->
   exists self1,
     SlotDrawer.mouse_callback self SlotDrawer.EVENT_LBUTTONDOWN x y = inr self1 /\
     SlotDrawer.mouse_callback self1 SlotDrawer.EVENT_RBUTTONDOWN x' y' = inr self) /\
  (List.length (SlotDrawer.points self) = 3%nat ->
   exists self1,
     SlotDrawer.mouse_callback self SlotDrawer.EVENT_LBUTTONDOWN x y = inr self1 /\
     SlotDrawer.mouse_callback self1 SlotDrawer.EVENT_RBUTTONDOWN x' y'
     = inr (SlotDrawer.mkState [] (SlotDrawer.slots self) (SlotDrawer.scale_factor self))).
Proof.
  intros Hsf. destruct self as [pts sls sf]. cbn [SlotDrawer.scale_factor] in Hsf.
  cbn [SlotDrawer.points SlotDrawer.slots SlotDrawer.scale_factor].
  split; intros Hlen; unfold SlotDrawer.mouse_callback at 1;
    cbn [SlotDrawer.points SlotDrawer.slots SlotDrawer.scale_factor];
    rewrite !py_div_nonzero by assumption.
  - assert (E : (List.length (pts ++ [(py_int (inject_Z x / sf), py_int (inject_Z y / sf))])
                 =? 4)%nat = false).
    { apply Nat.eqb_neq. rewrite length_app. cbn [List.length]. lia. }
    rewrite E. eexists. split; [reflexivity|].
    unfold SlotDrawer.mouse_callback.
    cbn [SlotDrawer.points SlotDrawer.slots SlotDrawer.scale_factor].
    rewrite removelast_last.
    destruct (pts ++ [(py_int (inject_Z x / sf), py_int (inject_Z y / sf))]) eqn:Eapp;
      [now destruct pts | reflexivity].
  - assert (E : (List.length (pts ++ [(py_int (inject_Z x / sf), py_int (inject_Z y / sf))])
                 =? 4)%nat = true).
    { apply Nat.eqb_eq. rewrite length_app. cbn [List.length]. lia. }
    rewrite E. eexists. split; [reflexivity|].
    unfold SlotDrawer.mouse_callback.
    cbn [SlotDrawer.points SlotDrawer.slots SlotDrawer.scale_factor].
    rewrite removelast_last.
    destruct (sls ++ [pts ++ [(py_int (inject_Z x / sf), py_int (inject_Z y / sf))]])
      eqn:Eapp; [now destruct sls | reflexivity].
Qed.

Lemma right_click_undoes_left_click_witness :
  exists self1,
    SlotDrawer.mouse_callback (SlotDrawer.mkState [(1, 1); (2, 2); (3, 3)]%Z [] 1)
      SlotDrawer.EVENT_LBUTTONDOWN 4 4 = inr self1 /\
    SlotDrawer.mouse_callback self1 SlotDrawer.EVENT_RBUTTONDOWN 0 0
    = inr (SlotDrawer.mkState [] [] 1).
Proof.
  destruct (right_click_undoes_left_click
              (SlotDrawer.mkState [(1, 1); (2, 2); (3, 3)]%Z [] 1) 4 4 0 0) as [_ H].
  - vm_compute. discriminate.
  - exact (H eq_refl).
Defined.

Lemma py_int_ge_Z (q : Q) (z : Z) : 0 <= q -> inject_Z z <= q -> (z <= py_int q)%Z.
Proof.
  intros H0 Hq. rewrite (py_int_floor q H0).
  rewrite <- (Qfloor_Z z). now apply Qfloor_resp_le.
Qed.

Lemma py_int_gt (q : Q) : 0 <= q -> q < inject_Z (py_int q) + 1.
Proof.
  intros H0. rewrite (py_int_floor q H0).
  pose proof (Qlt_floor q) as H. rewrite inject_Z_plus in H. exact H.
Qed.

(** A clicked display coordinate, stored and scaled back for display. *)
Lemma click_redrawn_nearby (sf : Q) (x : Z) :
  0 < sf -> (0 <= x)%Z ->
  let orig := py_int (inject_Z x / sf) in
  let drawn := py_int (inject_Z orig * sf) in
  (0 <= orig)%Z /\ (drawn <= x)%Z /\ inject_Z x < inject_Z drawn + sf + 1 /\
  (sf <= 1 -> (x - 1 <= drawn)%Z).
Proof.
  intros Hsf Hx orig drawn.
  pose proof (inject_Z_nonneg x Hx) as Qx.
  assert (Hq : 0 <= inject_Z x / sf) by (apply Qle_shift_div_l; trivial; lra).
  destruct (py_int_bounds _ Hq) as [Ho0 Ho1]. fold orig in Ho0, Ho1.
  pose proof (py_int_gt _ Hq) as Ho2. fold orig in Ho2.
  assert (Hlow : inject_Z orig * sf <= inject_Z x).
  { apply Qle_trans with (inject_Z x / sf * sf).
    - apply Qmult_le_compat_r; lra.
    - apply Qle_lteq. right. field. lra. }
  assert (Hhigh : inject_Z x < inject_Z orig * sf + sf).
  { assert (E : inject_Z x == inject_Z x / sf * sf) by (field; lra).
    rewrite E at 1.
    setoid_replace (inject_Z orig * sf + sf) with ((inject_Z orig + 1) * sf) by ring.
    apply Qmult_lt_compat_r; assumption. }
  assert (Hd : 0 <= inject_Z orig * sf).
  { apply Qmult_le_0_compat; [now apply inject_Z_nonneg | lra]. }
  pose proof (py_int_gt _ Hd) as Hd2. fold drawn in Hd2.
  split; [exact Ho0|]. split; [now apply py_int_le_Z|]. split; [lra|].
  intros Hsf1. subst drawn. apply py_int_ge_Z; trivial.
  unfold Z.sub. rewrite inject_Z_plus, inject_Z_opp. change (inject_Z 1) with 1. lra.
Qed.

(** X23: with a positive scale factor, a left click at a non-negative
    display position stores a point which, scaled back for display by
    [draw_slots_on_frame], lies at or before the click on each axis and less
    than [scale_factor + 1] away from it; with a scale factor of at most 1
    it is the clicked pixel or its neighbour. *)
Theorem clicked_point_is_redrawn_near_the_click
        (self self' : SlotDrawer.state) (x y : Z) :
  0 < SlotDrawer.scale_factor self -> (0 <= x)%Z -> (0 <= y)%Z ->
  SlotDrawer.mouse_callback self SlotDrawer.EVENT_LBUTTONDOWN x y = inr self' ->
  exists p,
    (SlotDrawer.points self' = SlotDrawer.points self ++ [p] \/
     SlotDrawer.slots self'
     = SlotDrawer.slots self ++ [SlotDrawer.points self ++ [p]]) /\
    let '(dx, dy) := SlotDrawer.scaled_point self' p in
    (dx <= x)%Z /\ inject_Z x < inject_Z dx + SlotDrawer.scale_factor self + 1 /\
    (dy <= y)%Z /\ inject_Z y < inject_Z dy + SlotDrawer.scale_factor self + 1 /\
    (SlotDrawer.scale_factor self <= 1 -> (x - 1 <= dx)%Z /\ (y - 1 <= dy)%Z).
Proof.
  intros Hsf Hx Hy. unfold SlotDrawer.mouse_callback.
  rewrite !py_div_nonzero by lra.
  set (sf := SlotDrawer.scale_factor self) in *.
  destruct (click_redrawn_nearby sf x Hsf Hx) as (_ & X1 & X2 & X3).
  destruct (click_redrawn_nearby sf y Hsf Hy) as (_ & Y1 & Y2 & Y3).
  set (p := (py_int (inject_Z x / sf), py_int (inject_Z y / sf))).
  destruct (List.length (SlotDrawer.points self ++ [p]) =? 4)%nat; intros [= <-];
    exists p; (split; [cbn; auto|]);
    unfold SlotDrawer.scaled_point, p; cbn [SlotDrawer.scale_factor];
    repeat split; auto.
Qed.

Lemma clicked_point_is_redrawn_near_the_click_witness :
  exists p,
    (SlotDrawer.points (SlotDrawer.mkState [(200, 100)%Z] [] (3 # 4))
     = [] ++ [p] \/
     SlotDrawer.slots (SlotDrawer.mkState [(200, 100)%Z] [] (3 # 4)) = [] ++ [[] ++ [p]]) /\
    let '(dx, dy) := SlotDrawer.scaled_point (SlotDrawer.mkState [(200, 100)%Z] [] (3 # 4)) p in
    (149 <= dx <= 150)%Z /\ (74 <= dy <= 75)%Z.
Proof.
  destruct (clicked_point_is_redrawn_near_the_click
              (SlotDrawer.mkState [] [] (3 # 4))
              (SlotDrawer.mkState [(200, 100)%Z] [] (3 # 4)) 150 75)
    as (p & Hp & H); try reflexivity; try lia.
  exists p. split; [exact Hp|].
  destruct (SlotDrawer.scaled_point (SlotDrawer.mkState [(200, 100)%Z] [] (3 # 4)) p)
    as [dx dy].
  destruct H as (H1 & _ & H3 & _ & H5).
  destruct H5 as [H5 H6]; [vm_compute; discriminate|]. lia.
Defined.

(** ** test22.py: the statistics of a frame *)

Lemma count_occupied_bounds (slots : list (list point)) (boxes : list box) (n0 : Z) :
  (forall slot, In slot slots -> slot <> []) ->
  exists n, ParkingStatistics.count_occupied slots boxes n0 = ok n /\
            (n0 <= n <= n0 + Z.of_nat (List.length slots))%Z.
Proof.
  revert n0. induction slots as [|slot slots IH]; intros n0 Hne.
  - exists n0. split; [reflexivity | cbn; lia].
  - cbn [ParkingStatistics.count_occupied].
    assert (Hslot : slot <> []) by (apply Hne; now left).
    destruct (polygon_to_bbox_nonempty slot Hslot) as [slot_bbox Hbbox].
    unfold ParkingDetector.check_slot_occupancy.
    change (ParkingDetector.polygon_to_bbox slot) with (YOLODetector.polygon_to_bbox slot).
    rewrite Hbbox. cbn [bind ok].
    destruct (IH (if Qgeb (ParkingDetector.running_max slot_bbox boxes 0)
                          ParkingDetector.OCCUPIED_THRESHOLD
                  then (n0 + 1)%Z else n0))
      as (n & Hn & Hb); [intros sl Hsl; apply Hne; now right|].
    exists n. split; [exact Hn|].
    cbn [List.length]. destruct (Qgeb _ _) in Hb; lia.
Qed.

Lemma count_occupied_raises (slots : list (list point)) (boxes : list box) (n0 : Z) :
  In [] slots -> ParkingStatistics.count_occupied slots boxes n0 = raise ValueError.
Proof.
  revert n0. induction slots as [|slot slots IH]; intros n0; [intros []|].
  intros Hin. cbn [ParkingStatistics.count_occupied].
  destruct slot as [|[x0 y0] pts].
  - reflexivity.
  - destruct Hin as [Hin|Hin]; [discriminate|].
    unfold ParkingDetector.check_slot_occupancy, ParkingDetector.polygon_to_bbox.
    cbn [bind ok]. now apply IH.
Qed.

(** X24: for slots that all have at least one point, a frame's statistics
    are total = number of slots, 0 <= occupied <= total, free = total -
    occupied >= 0 and an occupancy rate between 0 and 100, the rate being 0
    (no division) when there is no slot at all; a slot without points makes
    the frame raise [ValueError]. *)
Theorem frame_statistics_are_consistent
        (slots : list (list point)) (boxes : list YOLODetector.yolo_box) :
  ((forall slot, In slot slots -> slot <> []) ->
   exists occupied_slots free_slots occupancy_rate,
     ParkingStatistics.frame_statistics slots boxes
     = ok (Z.of_nat (List.length slots), occupied_slots, free_slots, occupancy_rate) /\
     (0 <= occupied_slots <= Z.of_nat (List.length slots))%Z /\
     free_slots = (Z.of_nat (List.length slots) - occupied_slots)%Z /\
     (0 <= free_slots)%Z /\
     0 <= occupancy_rate /\ occupancy_rate <= 100 /\
     (slots = [] -> occupied_slots = 0%Z /\ occupancy_rate = 0)) /\
  (In [] slots -> ParkingStatistics.frame_statistics slots boxes = raise ValueError).
Proof.
  split.
  - intros Hne. unfold ParkingStatistics.frame_statistics.
    destruct (count_occupied_bounds slots (ParkingStatistics.car_boxes boxes) 0 Hne)
      as (n & -> & Hn).
    cbn [bind ok]. unfold ParkingStatistics.statistics.
    set (total := Z.of_nat (List.length slots)) in *.
    eexists _, _, _. split; [reflexivity|].
    split; [lia|]. split; [reflexivity|]. split; [lia|].
    destruct (total >? 0)%Z eqn:Et.
    + apply Z.gtb_lt in Et.
      pose proof (inject_Z_pos total Et) as Qt.
      assert (Qn0 : 0 <= inject_Z n) by (apply inject_Z_nonneg; lia).
      assert (Qn1 : inject_Z n <= inject_Z total) by (rewrite <- Zle_Qle; lia).
      assert (Hr0 : 0 <= inject_Z n / inject_Z total) by (apply Qle_shift_div_l; trivial; lra).
      assert (Hr1 : inject_Z n / inject_Z total <= 1) by (apply Qle_shift_div_r; trivial; lra).
      split; [lra|]. split; [lra|].
      intros ->. subst total. cbn in Et. lia.
    + split; [lra|]. split; [lra|]. intros ->. subst total. cbn in Hn.
      split; [lia | reflexivity].
  - intros Hin. unfold ParkingStatistics.frame_statistics.
    now rewrite count_occupied_raises.
Qed.

Lemma frame_statistics_are_consistent_witness :
  exists occupied_slots free_slots occupancy_rate,
    ParkingStatistics.frame_statistics
      [scenario_polygon; [(0, 0); (10, 10)]] demo_predict_boxes_for_statistics
    = ok (2%Z, occupied_slots, free_slots, occupancy_rate) /\
    0 <= occupancy_rate /\ occupancy_rate <= 100.
Proof.
  destruct (frame_statistics_are_consistent
              [scenario_polygon; [(0, 0); (10, 10)]] demo_predict_boxes_for_statistics)
    as [H _].
  destruct H as (o & f & r & H1 & _ & _ & _ & H5 & H6 & _).
  - intros slot [<-|[<-|[]]]; discriminate.
  - exists o, f, r. auto.
Defined.

(** ** yolo_detector.py: the colours of [visualize_detection] *)

Lemma pyval_eqb_refl (k : pyval) : Visualize.pyval_eqb k k = true.
Proof.
  destruct k as [|n|s]; cbn; [reflexivity | apply Z.eqb_refl | apply String.eqb_refl].
Qed.

Lemma pyval_eqb_eq (a b : pyval) : Visualize.pyval_eqb a b = true <-> a = b.
Proof.
  split; [|intros ->; apply pyval_eqb_refl].
  destruct a as [|n|s], b as [|m|t]; cbn; try discriminate; trivial.
  - intros H. apply Z.eqb_eq in H. now subst.
  - intros H. apply String.eqb_eq in H. now subst.
Qed.

Lemma dict_find_put (m : list (pyval * YOLODetector.slot_result)) (k k' : pyval)
      (v : YOLODetector.slot_result) :
  Visualize.dict_find (Visualize.dict_put m k' v) k
  = if Visualize.pyval_eqb k' k then Some v else Visualize.dict_find m k.
Proof.
  induction m as [|[k0 v0] m IH]; cbn [Visualize.dict_put Visualize.dict_find].
  - reflexivity.
  - destruct (Visualize.pyval_eqb k0 k') eqn:E0; cbn [Visualize.dict_find].
    + apply pyval_eqb_eq in E0. subst k0.
      destruct (Visualize.pyval_eqb k' k); reflexivity.
    + destruct (Visualize.pyval_eqb k0 k) eqn:E1; [|exact IH].
      apply pyval_eqb_eq in E1. subst k0.
      destruct (Visualize.pyval_eqb k' k) eqn:E2; [|reflexivity].
      apply pyval_eqb_eq in E2. subst k'. rewrite pyval_eqb_refl in E0. discriminate.
Qed.

Lemma find_over_app {A} (f : A -> bool) (l l' : list A) :
  find f (l ++ l') = match find f l with Some x => Some x | None => find f l' end.
Proof.
  induction l as [|a l IH]; [reflexivity|]. cbn [app find].
  destruct (f a); [reflexivity | exact IH].
Qed.

Lemma dict_find_fold (results : list YOLODetector.slot_result)
      (m : list (pyval * YOLODetector.slot_result)) (k : pyval) :
  Visualize.dict_find
    (fold_left (fun m r => Visualize.dict_put m (YOLODetector.r_slot_number r) r) results m) k
  = match find (fun r => Visualize.pyval_eqb (YOLODetector.r_slot_number r) k) (rev results) with
    | Some r => Some r
    | None => Visualize.dict_find m k
    end.
Proof.
  revert m. induction results as [|r results IH]; intros m; [reflexivity|].
  cbn [fold_left rev]. rewrite IH, dict_find_put.
  rewrite find_over_app.
  destruct (find (fun r0 => Visualize.pyval_eqb (YOLODetector.r_slot_number r0) k)
                 (rev results)); [reflexivity|].
  cbn [find]. destruct (Visualize.pyval_eqb (YOLODetector.r_slot_number r) k); reflexivity.
Qed.

(** X25: [visualize_detection] colours a slot by the last result that
    carries its slot number: red when that result is occupied, green when it
    is vacant, and green as well when no result carries the number (a slot
    that was skipped by the detection is drawn as free). *)
Theorem slot_colour_follows_last_result
        (results : list YOLODetector.slot_result) (slot_num : pyval) :
  Visualize.slot_colour results slot_num
  = match find (fun r => Visualize.pyval_eqb (YOLODetector.r_slot_number r) slot_num)
               (rev results) with
    | Some r =>
        match YOLODetector.r_status r with
        | occupied => Visualize.red
        | vacant => Visualize.green
        end
    | None => Visualize.green
    end.
Proof.
  unfold Visualize.slot_colour, Visualize.result_map. rewrite dict_find_fold.
  destruct (find _ (rev results)) as [r|]; [|reflexivity].
  destruct (YOLODetector.r_status r); reflexivity.
Qed.

(** ** Malformed entries: skipped by the detection, fatal for the drawing *)




(** ** The two conversions and the two car filters side by side *)


Lemma car_boxes_are_vehicle_boxes (boxes : list YOLODetector.yolo_box) :
  ParkingStatistics.car_boxes boxes
  = map YOLODetector.bbox (YOLODetector.extract_vehicles boxes).
Proof.
  induction boxes as [|b boxes IH]; [reflexivity|].
  cbn [ParkingStatistics.car_boxes YOLODetector.extract_vehicles].
  destruct (YOLODetector.cls b =? 2)%Z; cbn [map YOLODetector.bbox]; now rewrite IH.
Qed.

(** X28: the vehicles kept from a detector answer are exactly its boxes of
    class 2, each with its own box and confidence and the label "car"; boxes
    of any other class (trucks and buses included) are never vehicles, and
    test22.py keeps the same boxes in the same order. *)
Theorem only_class_two_boxes_become_vehicles (boxes : list YOLODetector.yolo_box) :
  (forall v, In v (YOLODetector.extract_vehicles boxes) <->
             exists b, In b boxes /\ YOLODetector.cls b = 2%Z /\
                       v = YOLODetector.mkVehicle (YOLODetector.xyxy b)
                                                  (YOLODetector.conf b) "car") /\
  (List.length (YOLODetector.extract_vehicles boxes) <= List.length boxes)%nat /\
  ParkingStatistics.car_boxes boxes
  = map YOLODetector.bbox (YOLODetector.extract_vehicles boxes).
Proof.
  split; [intros v; apply extract_vehicles_spec|]. split; [|apply car_boxes_are_vehicle_boxes].
  induction boxes as [|b boxes IH]; [reflexivity|].
  cbn [YOLODetector.extract_vehicles].
  destruct (YOLODetector.cls b =? 2)%Z; cbn [List.length]; lia.
Qed.
